(** * rtstat: the router statistics tool, embedded and checked

    A shallow embedding of [rtstat/rtstat.py]: the text sanitizer, the
    key-value parser, the telnet session of the Thomson TG585 v8 profile, its
    queries and the polling entry point, followed by the properties the
    specification states about them. *)

From Stdlib Require Import ZArith NArith QArith_base List Ascii String Lia Bool.
From stdpp Require Import base decidable option list numbers countable gmap fin_maps.

Open Scope Z_scope.

(** ** Text: Python [str] and [bytes] *)

(** A Python [str] is a sequence of Unicode code points; [ord c] is the code
    point itself. A Python [bytes] is a sequence of octets. *)
Abbreviation char := N (only parsing).
Abbreviation str := (list N) (only parsing).
Abbreviation bytes := (list N) (only parsing).

Definition ord (c : char) : Z := Z.of_N c.

(** Literals of the source are written as Rocq strings; every literal the
    source uses is ASCII, so each octet is its own code point. *)
Definition py (s : string) : str :=
  map N_of_ascii (list_ascii_of_string s).

Definition LF : char := 10%N.
Definition CR : char := 13%N.
Definition CRLF : str := [CR; LF].

Definition str_eqb (a b : str) : bool := bool_decide (a = b).

(** [len(s)] *)
Definition len (s : str) : Z := Z.of_nat (length s).

(** [s[:stop]] and [s[start:]] with Python's treatment of negative and
    out-of-range bounds. *)
Definition clamp_index (s : str) (k : Z) : nat :=
  if k <? 0 then Z.to_nat (Z.max 0 (len s + k)) else Z.to_nat (Z.min k (len s)).

Definition slice_to (s : str) (stop : Z) : str := take (clamp_index s stop) s.
Definition slice_from (s : str) (start : Z) : str := drop (clamp_index s start) s.

(** [str.isspace] on one character: the code points CPython classifies as
    whitespace. *)
Definition isspace (c : char) : bool :=
  let n := ord c in
  ((9 <=? n) && (n <=? 13)) || ((28 <=? n) && (n <=? 32))
  || (n =? 133) || (n =? 160) || (n =? 5760)
  || ((8192 <=? n) && (n <=? 8202))
  || (n =? 8232) || (n =? 8233) || (n =? 8239) || (n =? 8287) || (n =? 12288).

Fixpoint lstrip (s : str) : str :=
  match s with
  | [] => []
  | c :: rest => if isspace c then lstrip rest else s
  end.

Definition rstrip (s : str) : str := rev (lstrip (rev s)).

(** [s.strip()] *)
Definition strip (s : str) : str := rstrip (lstrip s).

(** [a.endswith(b)] *)
Fixpoint startswith (a b : str) : bool :=
  match b, a with
  | [], _ => true
  | _ :: _, [] => false
  | y :: b', x :: a' => (x =? y)%N && startswith a' b'
  end.

Definition endswith (a b : str) : bool := startswith (rev a) (rev b).

(** [sep.join(parts)] *)
Fixpoint join (sep : str) (parts : list str) : str :=
  match parts with
  | [] => []
  | [p] => p
  | p :: rest => p ++ sep ++ join sep rest
  end.

(** [s.split(sep)] for a one-character [sep], which is what every call in
    the source passes. The result is never empty. *)
Fixpoint split (s : str) (sep : char) : list str :=
  match s with
  | [] => [[]]
  | c :: rest =>
      if (c =? sep)%N then [] :: split rest sep
      else match split rest sep with
           | [] => [[c]]
           | part :: parts => (c :: part) :: parts
           end
  end.

(** [s.split()]: the maximal runs of non-whitespace characters. [cur] is the
    run being read. *)
Fixpoint split_ws_from (s cur : str) : list str :=
  match s with
  | [] => if str_eqb cur [] then [] else [cur]
  | c :: rest =>
      if isspace c then
        if str_eqb cur [] then split_ws_from rest [] else cur :: split_ws_from rest []
      else split_ws_from rest (cur ++ [c])
  end.

Definition split_ws (s : str) : list str := split_ws_from s [].

(** [s.replace(old, new)] for a one-character [old]. *)
Definition replace (s : str) (old : char) (new : str) : str :=
  flat_map (fun c => if (c =? old)%N then new else [c]) s.

(** ** Exceptions and results *)

Inductive exn :=
| IOError (msg : str)
| KeyError (key : str)
| ValueError
| IndexError
| UnboundLocalError (name : str)
| UnicodeEncodeError
| UnicodeDecodeError
| EOFError
| AttributeError (name : str).

Inductive result (A : Type) :=
| Ok (a : A)
| Raise (e : exn).
Arguments Ok {A} a.
Arguments Raise {A} e.

(** ** Utility functions *)

(** [sanitize]: the comprehension keeps the one-character strings [c] of [s]
    that pass the test, and [join] concatenates them. *)
Definition sanitize_keep (c : char) : bool :=
  ((31 <? ord c) && (ord c <? 127)) || (c =? LF)%N.

Definition sanitize (s : str) : str :=
  join [] (map (fun c => [c]) (filter (fun c => sanitize_keep c = true) s)).

(** [merge_dicts]: [result.update(d)] for each argument in turn, so a later
    dictionary wins on a shared key. *)
Definition merge_dicts {V : Type} (dict_args : list (gmap str V)) : gmap str V :=
  foldl (fun result dictionary => dictionary ∪ result) ∅ dict_args.

(** *** [parse_key_value] *)

(** The locals of one pass of the inner [for]. [i] is the loop variable: it
    is local to the function, not to the loop, so it is unbound until the
    first iteration of the first non-empty line and afterwards keeps the last
    value it was given. *)
Record scan_locals := ScanLocals {
  level : Z;
  pos : Z;
  i : option nat
}.

(** [for i in range(len(line))]: [chars] is what remains of the line from
    index [idx] on. *)
Fixpoint scan (sep : str) (chars : str) (idx : nat) (st : scan_locals) : scan_locals :=
  match chars with
  | [] => st
  | c :: rest =>
      if str_eqb [c] (py "(") then
        scan sep rest (S idx) (ScanLocals (level st + 1) (pos st) (Some idx))
      else if str_eqb [c] (py ")") then
        scan sep rest (S idx) (ScanLocals (level st - 1) (pos st) (Some idx))
      else if str_eqb [c] sep && (level st =? 0) then
        ScanLocals (level st) (Z.of_nat idx) (Some idx)
      else
        scan sep rest (S idx) (ScanLocals (level st) (pos st) (Some idx))
  end.

(** The body of the outer [for], on the dictionary built so far and the
    current binding of [i]. *)
Definition parse_line (sep : str) (st : gmap str str * option nat) (line : str)
  : result (gmap str str * option nat) :=
  let '(kv, i0) := st in
  let after := scan sep line 0 (ScanLocals 0 (-1) i0) in
  match i after with
  | None => Raise (UnboundLocalError (py "i"))
  | Some i =>
      let k := strip (slice_to line (Z.of_nat i)) in
      let v := strip (slice_from line (Z.of_nat i + 1)) in
      Ok (if negb (str_eqb k []) then <[k := v]> kv else kv, Some i)
  end.

Fixpoint parse_lines (sep : str) (st : gmap str str * option nat) (lines : list str)
  : result (gmap str str * option nat) :=
  match lines with
  | [] => Ok st
  | line :: rest =>
      match parse_line sep st line with
      | Ok st' => parse_lines sep st' rest
      | Raise e => Raise e
      end
  end.

Definition parse_key_value (lines : list str) (sep : str) : result (gmap str str) :=
  match parse_lines sep (∅, None) lines with
  | Ok (kv, _) => Ok kv
  | Raise e => Raise e
  end.

(** The default [sep=':']. *)
Definition default_sep : str := py ":".

(** ** Library conversions used by the queries *)

Definition is_digit (c : char) : bool := (48 <=? ord c) && (ord c <=? 57).
Definition digit_value (c : char) : Z := ord c - 48.

(** The digits of an integer literal: decimal digits, with single underscores
    allowed between two digits. [after_digit] tells whether the previous
    character was a digit. *)
Fixpoint int_digits (s : str) (acc : Z) (after_digit : bool) : option Z :=
  match s with
  | [] => if after_digit then Some acc else None
  | c :: rest =>
      if is_digit c then int_digits rest (10 * acc + digit_value c) true
      else if (c =? 95)%N && after_digit then int_digits rest acc false
      else None
  end.

(** The whitespace [int] skips around the number: C's [isspace] for the
    characters below 127, which leaves out U+001C to U+001F, and the Unicode
    spaces above. *)
Definition int_space (c : char) : bool :=
  isspace c && negb ((28 <=? ord c) && (ord c <=? 31)).

Fixpoint lstrip_by (space : char -> bool) (s : str) : str :=
  match s with
  | [] => []
  | c :: rest => if space c then lstrip_by space rest else s
  end.

Definition strip_by (space : char -> bool) (s : str) : str :=
  rev (lstrip_by space (rev (lstrip_by space s))).

(** The default of [sys.int_max_str_digits]. *)
Definition int_max_str_digits : Z := 4300.

(** [int(s)] on text: surrounding whitespace, an optional sign, decimal
    digits; a number of more than [int_max_str_digits] digits is refused.
    Only the ASCII digits are modelled; the text the queries convert has
    been through [sanitize], which leaves no other digit. *)
Definition int (s : str) : result Z :=
  let t := strip_by int_space s in
  let r := match t with
           | 43%N :: digits => int_digits digits 0 false
           | 45%N :: digits => Z.opp <$> int_digits digits 0 false
           | _ => int_digits t 0 false
           end in
  match r with
  | Some z =>
      if Z.of_nat (length (List.filter is_digit t)) <=? int_max_str_digits
      then Ok z else Raise ValueError
  | None => Raise ValueError
  end.

(** [datetime.strptime(s, '%H:%M:%S')]. The format compiles to the pattern
    [(2[0-3]|[0-1]\d|\d):([0-5]\d|\d):(6[0-1]|[0-5]\d|\d)], matched at the
    start of [s] with the alternatives tried in order; unconverted trailing
    data is an error, and so is a second above 59, which [datetime] refuses. *)
Record hms_time := HMS { hour : Z; minute : Z; second : Z }.

Definition in_range (lo hi : Z) (c : char) : bool := (lo <=? ord c) && (ord c <=? hi).

Definition two_digits (p1 p2 : char -> bool) (s : str) : option (Z * str) :=
  match s with
  | a :: b :: rest =>
      if p1 a && p2 b then Some (10 * digit_value a + digit_value b, rest) else None
  | _ => None
  end.

Definition one_digit (s : str) : option (Z * str) :=
  match s with
  | a :: rest => if is_digit a then Some (digit_value a, rest) else None
  | _ => None
  end.

(** The first alternative whose match lets the rest of the pattern [k]
    succeed. *)
Fixpoint first_match {A : Type} (alts : list (str -> option (Z * str)))
    (k : Z -> str -> option A) (s : str) : option A :=
  match alts with
  | [] => None
  | alt :: others =>
      match alt s with
      | Some (v, rest) =>
          match k v rest with
          | Some a => Some a
          | None => first_match others k s
          end
      | None => first_match others k s
      end
  end.

Definition expect_colon {A : Type} (k : str -> option A) (s : str) : option A :=
  match s with
  | 58%N :: rest => k rest
  | _ => None
  end.

Definition directive_H : list (str -> option (Z * str)) :=
  [two_digits (in_range 50 50) (in_range 48 51); two_digits (in_range 48 49) is_digit; one_digit].
Definition directive_M : list (str -> option (Z * str)) :=
  [two_digits (in_range 48 53) is_digit; one_digit].
Definition directive_S : list (str -> option (Z * str)) :=
  [two_digits (in_range 54 54) (in_range 48 49); two_digits (in_range 48 53) is_digit; one_digit].

Definition strptime_HMS (s : str) : result hms_time :=
  let found :=
    first_match directive_H (fun h => expect_colon (
      first_match directive_M (fun m => expect_colon (
        first_match directive_S (fun sec rest => Some (HMS h m sec, rest)))))) s in
  match found with
  | Some (t, []) => if second t <=? 59 then Ok t else Raise ValueError
  | _ => Raise ValueError
  end.

(** [s.encode('utf-8')]: lone surrogates cannot be encoded. *)
Definition utf8_encode_char (c : char) : option bytes :=
  (if c <? 128 then Some [c]
   else if c <? 2048 then Some [192 + c / 64; 128 + c mod 64]
   else if c <? 65536 then
     if (55296 <=? c) && (c <? 57344) then None
     else Some [224 + c / 4096; 128 + (c / 64) mod 64; 128 + c mod 64]
   else if c <? 1114112 then
     Some [240 + c / 262144; 128 + (c / 4096) mod 64; 128 + (c / 64) mod 64; 128 + c mod 64]
   else None)%N.

Fixpoint utf8_encode_opt (s : str) : option bytes :=
  match s with
  | [] => Some []
  | c :: rest =>
      match utf8_encode_char c, utf8_encode_opt rest with
      | Some b, Some bs => Some (b ++ bs)
      | _, _ => None
      end
  end.

Definition encode (s : str) : result bytes :=
  match utf8_encode_opt s with
  | Some b => Ok b
  | None => Raise UnicodeEncodeError
  end.

(** [b.decode('utf-8')], strict: overlong forms, surrogates, code points
    above U+10FFFF and truncated sequences are errors. *)
Definition cont_in (lo hi b : N) : bool := ((lo <=? b) && (b <=? hi))%N.
Definition cont (b : N) : bool := cont_in 128 191 b.
Definition low6 (b : N) : N := (b mod 64)%N.

Fixpoint utf8_decode_opt (bs : bytes) : option str :=
  match bs with
  | [] => Some []
  | b0 :: r0 =>
      if (b0 <? 128)%N then cons b0 <$> utf8_decode_opt r0
      else if cont_in 194 223 b0 then
        match r0 with
        | b1 :: r1 =>
            if cont b1 then cons ((b0 mod 32) * 64 + low6 b1)%N <$> utf8_decode_opt r1
            else None
        | _ => None
        end
      else if cont_in 224 239 b0 then
        match r0 with
        | b1 :: b2 :: r2 =>
            let lo := if (b0 =? 224)%N then 160%N else 128%N in
            let hi := if (b0 =? 237)%N then 159%N else 191%N in
            if cont_in lo hi b1 && cont b2 then
              cons ((b0 mod 16) * 4096 + low6 b1 * 64 + low6 b2)%N <$> utf8_decode_opt r2
            else None
        | _ => None
        end
      else if cont_in 240 244 b0 then
        match r0 with
        | b1 :: b2 :: b3 :: r3 =>
            let lo := if (b0 =? 240)%N then 144%N else 128%N in
            let hi := if (b0 =? 244)%N then 143%N else 191%N in
            if cont_in lo hi b1 && cont b2 && cont b3 then
              cons ((b0 mod 8) * 262144 + low6 b1 * 4096 + low6 b2 * 64 + low6 b3)%N
                <$> utf8_decode_opt r3
            else None
        | _ => None
        end
      else None
  end.

Definition decode (b : bytes) : result str :=
  match utf8_decode_opt b with
  | Some s => Ok s
  | None => Raise UnicodeDecodeError
  end.

(** ** The transport *)

(** What the session needs of [telnetlib.Telnet]: [read_until(expected,
    timeout)], which returns the bytes received up to and including
    [expected], or whatever arrived when it gives up, and may raise;
    [write(buffer)], which may raise; and [close()]. *)
Class Transport (T : Type) := {
  read_until : T -> bytes -> option Q -> result bytes * T;
  conn_write : T -> bytes -> result unit * T;
  conn_close : T -> T
}.

(** The calls made on the connection, in order. *)
Inductive event :=
| EvReadUntil (expected : bytes)
| EvWrite (buffer : bytes)
| EvClose.

#[export] Instance event_eq_dec : EqDecision event.
Proof. solve_decision. Defined.

Record world (T : Type) := World {
  conn : T;
  trace : list event
}.
Arguments World {T} conn trace.
Arguments conn {T} w.
Arguments trace {T} w.

(** A scripted device, for running the session: [pending] is what has been
    received and not yet read, and each write makes the device send the next
    chunk of [script]. [read_until] follows telnetlib: it returns through the
    first occurrence of [expected]; without one it returns all that is
    pending, and raises [EOFError] when the stream has ended with nothing
    pending. *)
Record scripted := Scripted {
  pending : bytes;
  script : list bytes;
  at_eof : bool;
  closed : bool
}.

Fixpoint bytes_prefix (a b : bytes) : bool :=
  match b, a with
  | [], _ => true
  | _ :: _, [] => false
  | y :: b', x :: a' => (x =? y)%N && bytes_prefix a' b'
  end.

(** Splits [buf] after the first occurrence of [expected]. *)
Fixpoint cut_after (expected buf : bytes) : option (bytes * bytes) :=
  if bytes_prefix buf expected then
    Some (expected, drop (length expected) buf)
  else
    match buf with
    | [] => None
    | b :: rest =>
        match cut_after expected rest with
        | Some (got, unread) => Some (b :: got, unread)
        | None => None
        end
    end.

Definition scripted_read_until (t : scripted) (expected : bytes) (timeout : option Q)
  : result bytes * scripted :=
  match cut_after expected (pending t) with
  | Some (got, unread) => (Ok got, Scripted unread (script t) (at_eof t) (closed t))
  | None =>
      match pending t with
      | [] => if at_eof t then (Raise EOFError, t) else (Ok [], t)
      | buf => (Ok buf, Scripted [] (script t) (at_eof t) (closed t))
      end
  end.

Definition scripted_write (t : scripted) (buffer : bytes) : result unit * scripted :=
  match script t with
  | [] => (Ok tt, t)
  | chunk :: later => (Ok tt, Scripted (pending t ++ chunk) later (at_eof t) (closed t))
  end.

Definition scripted_close (t : scripted) : scripted :=
  Scripted (pending t) (script t) (at_eof t) true.

#[export] Instance scripted_transport : Transport scripted := {
  read_until := scripted_read_until;
  conn_write := scripted_write;
  conn_close := scripted_close
}.

(** ** Router implementations *)

(** The groups of a snapshot. *)
Record xdsl_info := XdslInfo {
  state : str;
  uptime : Z;
  xdsl_type : str;
  bandwidth_down : Z;
  bandwidth_up : Z
}.

Record if_counters := IfCounters { tx : Z; rx : Z }.

Inductive group :=
| GXdsl (info : xdsl_info)
| GIfList (info : gmap str if_counters).

(** The attributes of a [TG585v8] object other than [conn], which lives in
    the world. [connected] is unset until [__init__] assigns it. *)
Record TG585v8 := Session {
  username : str;
  password : str;
  timeout : option Q;
  connected : option bool
}.

(** [x or default] on an optional string argument. *)
Definition or_default (x : option str) (default : str) : str :=
  match x with
  | Some (c :: s) => c :: s
  | _ => default
  end.

(** [kv[key]] and [l[n]] *)
Definition getitem {V : Type} (kv : gmap str V) (key : str) : result V :=
  match kv !! key with
  | Some v => Ok v
  | None => Raise (KeyError key)
  end.

Definition index {A : Type} (l : list A) (n : nat) : result A :=
  match l !! n with
  | Some a => Ok a
  | None => Raise IndexError
  end.

Definition result_bind {A B : Type} (r : result A) (f : A -> result B) : result B :=
  match r with
  | Ok a => f a
  | Raise e => Raise e
  end.

Notation "'let*' x ':=' r 'in' k" := (result_bind r (fun x => k))
  (at level 10, x name, r at level 100, k at level 200).

(** The field conversions of [get_xdsl_info], on the parsed dictionary. *)
Definition uptime_of (uptime_str : str) : result Z :=
  let* before_comma := index (split uptime_str 44%N) 0 in
  let* days_str := index (split (strip before_comma) 32%N) 0 in
  let* days := int days_str in
  let* hms_str := index (split uptime_str 44%N) 1 in
  let* t := strptime_HMS (strip hms_str) in
  Ok (days * 3600 * 24 + hour t * 3600 + minute t * 60 + second t).

Definition bandwidth_of (bandwidth_str : str) : result (Z * Z) :=
  let* down_str := index (split bandwidth_str 47%N) 0 in
  let* down := int down_str in
  let bwd := 1000 * down / 8 in
  let* up_str := index (split bandwidth_str 47%N) 1 in
  let* up := int up_str in
  let bwu := 1000 * up / 8 in
  Ok (bwd, bwu).

Definition key_uptime : str := py "Up time (Days hh:mm:ss)".
Definition key_bandwidth : str := py "Bandwidth (Down/Up - kbit/s)".
Definition key_state : str := py "Modem state".
Definition key_type : str := py "xDSL Type".

Definition xdsl_fields (kv : gmap str str) : result (gmap str group) :=
  let* uptime_str := getitem kv key_uptime in
  let* uptime := uptime_of uptime_str in
  let* bandwidth_str := getitem kv key_bandwidth in
  let* bw := bandwidth_of bandwidth_str in
  let* st := getitem kv key_state in
  let* ty := getitem kv key_type in
  Ok {[ py "xdsl-info" := GXdsl (XdslInfo st uptime ty (fst bw) (snd bw)) ]}.

(** The loop of [get_iflist_info]. *)
Definition iflist_line (info : gmap str if_counters) (line : str)
  : result (gmap str if_counters) :=
  let line := join (py " ") (split_ws (replace line 46%N [])) in
  if negb (str_eqb line []) then
    let tokens := split_ws line in
    let* t4 := index tokens 4 in
    let* tx := int t4 in
    let* t5 := index tokens 5 in
    let* rx := int t5 in
    let* name := index tokens 2 in
    Ok (<[name := IfCounters tx rx]> info)
  else Ok info.

Fixpoint iflist_lines (info : gmap str if_counters) (lines : list str)
  : result (gmap str if_counters) :=
  match lines with
  | [] => Ok info
  | line :: rest =>
      let* info' := iflist_line info line in
      iflist_lines info' rest
  end.

(** Computations on the connection: they may raise, and the world is kept
    either way. *)
Definition M (T A : Type) : Type := world T -> result A * world T.

Definition ret {T A : Type} (a : A) : M T A := fun w => (Ok a, w).
Definition raise {T A : Type} (e : exn) : M T A := fun w => (Raise e, w).
Definition lift {T A : Type} (r : result A) : M T A := fun w => (r, w).
Definition bind {T A B : Type} (m : M T A) (f : A -> M T B) : M T B :=
  fun w =>
    match m w with
    | (Ok a, w') => f a w'
    | (Raise e, w') => (Raise e, w')
    end.

Notation "x <- m ;; k" := (bind m (fun x => k))
  (at level 100, m at next level, right associativity).
Notation "m ;; k" := (bind m (fun _ => k))
  (at level 100, right associativity).

Section TG585v8.
Context {T : Type} `{Transport T}.

Definition do_read_until (expected : bytes) (tmo : option Q) : M T bytes :=
  fun w =>
    let '(r, c) := read_until (conn w) expected tmo in
    (r, World c (trace w ++ [EvReadUntil expected])).

Definition do_write (buffer : bytes) : M T unit :=
  fun w =>
    let '(r, c) := conn_write (conn w) buffer in
    (r, World c (trace w ++ [EvWrite buffer])).

Definition do_close : M T unit :=
  fun w => (Ok tt, World (conn_close (conn w)) (trace w ++ [EvClose])).

Definition read_failed : exn := IOError (py "Failed to read from telnet session.").

Definition read (self : TG585v8) (s : str) : M T str :=
  expected <- lift (encode s) ;;
  data <- do_read_until expected (timeout self) ;;
  text <- lift (decode data) ;;
  if negb (endswith text s) then raise read_failed
  else ret (sanitize (slice_to text (- len s))).

Definition write (self : TG585v8) (s : str) : M T unit :=
  buffer <- lift (encode s) ;;
  do_write buffer.

Definition top_prompt (user : str) : str := py "{" ++ user ++ py "}=>".
Definition prompt (user : str) : str := py "{" ++ user ++ py "}".

(** [__init__], on the connection [telnetlib.Telnet(host=host, port=port)]
    has opened, which is the [conn] of the world it runs in. *)
Definition __init__ (tmo : option Q) (user pass : option str) : M T TG585v8 :=
  let self := Session (or_default user (py "Administrator")) (or_default pass []) tmo None in
  read self (py "Username : ") ;;
  write self (username self ++ CRLF) ;;
  read self (py "Password : ") ;;
  write self (password self ++ CRLF) ;;
  let self := Session (username self) (password self) (timeout self) (Some true) in
  read self (top_prompt (username self)) ;;
  ret self.

Definition send (self : TG585v8) (command : str) : M T str :=
  write self (command ++ CRLF) ;;
  read self CRLF ;;
  read self (prompt (username self)).

(** [name()] *)
Definition name : str := py "Thomson TG585 v8".

Definition __exit__ (self : TG585v8) : M T unit :=
  match connected self with
  | None => raise (AttributeError (py "connected"))
  | Some c =>
      (if c then write self (py "exit" ++ CRLF) else ret tt) ;;
      do_close
  end.

Definition __enter__ (self : TG585v8) : M T TG585v8 := ret self.

(** [for _ in range(n): body] *)
Fixpoint for_range (n : nat) (body : M T unit) : M T unit :=
  match n with
  | O => ret tt
  | S n' => body ;; for_range n' body
  end.

Definition reset_level (self : TG585v8) : M T unit :=
  for_range 4 (send self (py "..") ;; ret tt).

Definition keepalive (self : TG585v8) : M T unit :=
  send self (py "help") ;; ret tt.

Definition get_xdsl_info (self : TG585v8) : M T (gmap str group) :=
  reset_level self ;;
  out <- send self (py "xdsl info") ;;
  let lines := split out LF in
  kv <- lift (parse_key_value lines default_sep) ;;
  lift (xdsl_fields kv).

Definition get_iflist_info (self : TG585v8) : M T (gmap str group) :=
  reset_level self ;;
  out <- send self (py "ip iflist") ;;
  let lines := List.tl (split out LF) in
  info <- lift (iflist_lines ∅ lines) ;;
  ret {[ py "iflist" := GIfList info ]}.

Definition get_all_info (self : TG585v8) : M T (gmap str group) :=
  a <- get_xdsl_info self ;;
  b <- get_iflist_info self ;;
  ret (merge_dicts [a; b]).

(** [with ctor as x: body]: the object is built first; only then is the
    block entered, and [__exit__] is called when the block is left, by
    completion or by an exception. An exception of [__exit__] replaces the
    one of the block; otherwise the block's outcome stands, since
    [__exit__] returns [None]. *)
Definition with_ {A : Type} (ctor : M T TG585v8) (body : TG585v8 -> M T A) : M T A :=
  fun w =>
    match ctor w with
    | (Raise e, w1) => (Raise e, w1)
    | (Ok obj, w1) =>
        match __enter__ obj w1 with
        | (Raise e, w2) => (Raise e, w2)
        | (Ok router, w2) =>
            let '(r, w3) := body router w2 in
            match __exit__ obj w3 with
            | (Ok _, w4) => (r, w4)
            | (Raise e, w4) => (Raise e, w4)
            end
        end
    end.

(** [main], from the parsed arguments on: the timeout is given in
    milliseconds, and the value is the ['data'] entry of the snapshot. The
    printing, which the source does inside the block, is not part of the
    model: when [__exit__] raises after the queries have succeeded, the
    source has already printed the snapshot, and here only the error
    shows. *)
Definition main (timeout_ms : Z) (user pass : option str) : M T (gmap str group) :=
  with_ (__init__ (Some (Qmake timeout_ms 1000)) user pass)
        (fun router => get_all_info router).

End TG585v8.

(** ** What the specification speaks of *)

(** The characters the sanitizer is specified to keep. *)
Definition printable_or_newline (c : char) : Prop :=
  (31 < ord c < 127) \/ c = LF.

#[export] Instance printable_or_newline_dec c : Decision (printable_or_newline c).
Proof. unfold printable_or_newline. apply _. Defined.

(** The nesting depth reached after the characters of [s]: one up for each
    opening parenthesis, one down for each closing one. *)
Fixpoint depth (s : str) : Z :=
  match s with
  | [] => 0
  | c :: rest =>
      (if (c =? 40)%N then 1 else if (c =? 41)%N then -1 else 0) + depth rest
  end.

(** Index [p] of [line] holds the separator [c], at depth zero. *)
Definition sep_at_depth0 (c : char) (line : str) (p : nat) : Prop :=
  line !! p = Some c /\ depth (take p line) = 0.

(** [p] is the first such index. *)
Definition first_sep_at_depth0 (c : char) (line : str) (p : nat) : Prop :=
  sep_at_depth0 c line p /\ Forall (fun q => ~ sep_at_depth0 c line q) (seq 0 p).

#[export] Instance sep_at_depth0_dec c line p : Decision (sep_at_depth0 c line p).
Proof. unfold sep_at_depth0. apply _. Defined.

#[export] Instance first_sep_at_depth0_dec c line p : Decision (first_sep_at_depth0 c line p).
Proof. unfold first_sep_at_depth0. apply _. Defined.

(** The entry a line contributes when split at index [p]. *)
Definition entry_at (line : str) (p : nat) (kv : gmap str str) : gmap str str :=
  let k := strip (take p line) in
  let v := strip (drop (S p) line) in
  if decide (k = []) then kv else <[k := v]> kv.

(** The number of times the connection was closed, and the number of logout
    commands written, in a trace. *)
Definition is_close (ev : event) : bool :=
  match ev with EvClose => true | _ => false end.

Definition is_logout (ev : event) : bool :=
  match ev with
  | EvWrite buffer => bool_decide (buffer = py "exit" ++ CRLF)
  | _ => false
  end.

Definition closes (tr : list event) : nat := length (List.filter is_close tr).
Definition logouts (tr : list event) : nat := length (List.filter is_logout tr).

(** One command cycle of [send] as it shows in the trace: the command is
    written, the echo is read to the end of its line, the reply is read to
    the prompt. *)
Definition command_cycle (command prompt_bytes : bytes) : list event :=
  [EvWrite (command ++ CRLF); EvReadUntil CRLF; EvReadUntil prompt_bytes].

(** What an exception carries, and whether it names a given text. *)
Definition exn_args (e : exn) : list str :=
  match e with
  | IOError msg => [msg]
  | KeyError key => [key]
  | UnboundLocalError name => [name]
  | AttributeError name => [name]
  | _ => []
  end.

Fixpoint contains (s t : str) : bool :=
  startswith s t || match s with
                    | [] => false
                    | _ :: rest => contains rest t
                    end.

Definition mentions (e : exn) (t : str) : bool :=
  existsb (fun a => contains a t) (exn_args e).

Definition is_IOError (e : exn) : bool :=
  match e with IOError _ => true | _ => false end.

(** The number of writes in a trace, and computations that add at most [n]. *)
Definition is_write (ev : event) : bool :=
  match ev with EvWrite _ => true | _ => false end.

Definition writes (tr : list event) : nat := length (List.filter is_write tr).

Definition writes_at_most {T A : Type} (n : nat) (m : M T A) : Prop :=
  forall w r w', m w = (r, w') -> (writes (trace w') <= writes (trace w) + n)%nat.

(** The errors of a field that does not convert. *)
Definition conversion_error (e : exn) : Prop := e = ValueError \/ e = IndexError.

(** Computations that never close the connection. *)
Definition keeps_open {T A : Type} (m : M T A) : Prop :=
  forall w r w', m w = (r, w') -> closes (trace w') = closes (trace w).

(** The keys [get_xdsl_info] looks up, in the order it looks them up. *)
Definition required_keys : list str := [key_uptime; key_bandwidth; key_state; key_type].

(** ** Scripted devices *)

Definition device_prompt : bytes := py "{Administrator}=>".

(** What the device sends after a command: its echo, its output, the prompt. *)
Definition device_reply (command : string) (output : bytes) : bytes :=
  py command ++ CRLF ++ output ++ device_prompt.

Definition xdsl_output : bytes :=
  py "Modem state: Showtime" ++ CRLF
  ++ py "Up time (Days hh:mm:ss): 1, 00:00:00" ++ CRLF
  ++ py "Bandwidth (Down/Up - kbit/s): 8000/800" ++ CRLF
  ++ py "xDSL Type: VDSL2" ++ CRLF.

Definition iflist_output : bytes :=
  py "Interface   Group  MTU   RX         TX         Admin  Oper" ++ CRLF
  ++ py "0   loop. . . . . . . local  65535 123 456 UP [UP]" ++ CRLF.

Definition login_script : list bytes :=
  [py "Password : "; py "Welcome" ++ CRLF ++ device_prompt].

Definition query_script (command : string) (output : bytes) : list bytes :=
  repeat (device_reply ".." []) 4 ++ [device_reply command output].

(** A device that answers the whole poll. *)
Definition device : scripted :=
  Scripted (py "Username : ")
    (login_script ++ query_script "xdsl info" xdsl_output
     ++ query_script "ip iflist" iflist_output) false false.

(** A device that never sends anything. *)
Definition silent_device : scripted := Scripted [] [] false false.

(** A device past its login, whose answer to "xdsl info" is [output]. *)
Definition logged_in_device (output : bytes) : scripted :=
  Scripted [] (query_script "xdsl info" output) false false.

Definition administrator : TG585v8 :=
  Session (py "Administrator") [] None (Some true).

(** The answer of a device whose firmware prints no uptime line. *)
Definition xdsl_output_without_uptime : bytes :=
  py "Modem state: Showtime" ++ CRLF
  ++ py "Bandwidth (Down/Up - kbit/s): 8000/800" ++ CRLF
  ++ py "xDSL Type: VDSL2" ++ CRLF.

(** ** Further notions used by the properties *)

(** Computations all of whose calls on the connection satisfy [ok]. *)
Definition only {T A : Type} (ok : event -> Prop) (m : M T A) : Prop :=
  forall w r w', m w = (r, w') ->
    exists tr, trace w' = trace w ++ tr /\ Forall ok tr.

(** The calls a query of the profile may make: writing one of its three
    commands, reading to the end of the echoed line, reading to the prompt. *)
Definition query_event (self : TG585v8) (ev : event) : Prop :=
  ev = EvWrite (py ".." ++ CRLF)
  \/ ev = EvWrite (py "xdsl info" ++ CRLF)
  \/ ev = EvWrite (py "ip iflist" ++ CRLF)
  \/ ev = EvReadUntil CRLF
  \/ exists pb, encode (prompt (username self)) = Ok pb /\ ev = EvReadUntil pb.

(** A connection on which writing fails once [budget] writes have gone
    through, as a socket does when the peer has gone away. *)
Record flaky := Flaky {
  inner : scripted;
  budget : nat
}.

Definition broken_pipe : exn := IOError (py "[Errno 32] Broken pipe").

Definition flaky_read_until (t : flaky) (expected : bytes) (tmo : option Q)
  : result bytes * flaky :=
  let '(r, c) := scripted_read_until (inner t) expected tmo in
  (r, Flaky c (budget t)).

Definition flaky_write (t : flaky) (buffer : bytes) : result unit * flaky :=
  match budget t with
  | O => (Raise broken_pipe, t)
  | S n => let '(r, c) := scripted_write (inner t) buffer in (r, Flaky c n)
  end.

Definition flaky_close (t : flaky) : flaky :=
  Flaky (scripted_close (inner t)) (budget t).

#[export] Instance flaky_transport : Transport flaky := {
  read_until := flaky_read_until;
  conn_write := flaky_write;
  conn_close := flaky_close
}.

(** The session the handshake builds with the default credentials and the
    five-second timeout of [main]. *)
Definition default_session : TG585v8 :=
  Session (py "Administrator") [] (Some (Qmake 5000 1000)) (Some true).

(** A device past its login that answers one command. *)
Definition answering (command : string) (output : bytes) : scripted :=
  Scripted [] [device_reply command output] false false.

(** A decimal numeral: a non-empty run of the digits 0 to 9, and the number
    it denotes. *)
Definition is_numeral (ds : str) : Prop :=
  ds <> [] /\ Forall (fun c => is_digit c = true) ds.

Definition decimal_value (ds : str) : Z :=
  foldl (fun acc c => 10 * acc + digit_value c) 0 ds.

(** A number below 100 written with two digits, and a time of day written
    hh:mm:ss. *)
Definition two_digit (n : nat) : str :=
  [N.of_nat (48 + n / 10); N.of_nat (48 + n mod 10)].

Definition clock (h m s : nat) : str :=
  two_digit h ++ py ":" ++ two_digit m ++ py ":" ++ two_digit s.

(** A word: a non-empty text without whitespace. *)
Definition is_word (t : str) : Prop :=
  t <> [] /\ Forall (fun c => isspace c = false) t.

(** The answer of a device to "ip iflist": a header and one interface. *)
Definition answering_iflist : scripted :=
  Scripted [] (query_script "ip iflist" iflist_output) false false.

(** A device that has closed the stream without sending anything, and one
    that sends a byte that is no UTF-8 before the login prompt. *)
Definition closed_device : scripted := Scripted [] [] true false.

Definition garbled_device : scripted :=
  Scripted (255%N :: py "Username : ") [] false false.

(** The answer of a device that prints no bandwidth line. *)
Definition xdsl_output_without_bandwidth : bytes :=
  py "Modem state: Showtime" ++ CRLF
  ++ py "Up time (Days hh:mm:ss): 1, 00:00:00" ++ CRLF
  ++ py "xDSL Type: VDSL2" ++ CRLF.

(** * Properties *)

(** ** The sanitizer *)

Lemma join_singletons (s : str) : join [] (map (fun c => [c]) s) = s.
Proof.
  induction s as [|c s IH]; [reflexivity|].
  destruct s as [|d s]; [reflexivity|].
  change (c :: join [] (map (fun c => [c]) (d :: s)) = c :: d :: s).
  now rewrite IH.
Qed.

Lemma sanitize_keep_spec (c : char) :
  sanitize_keep c = true <-> printable_or_newline c.
Proof.
  unfold sanitize_keep, printable_or_newline.
  rewrite orb_true_iff, andb_true_iff, !Z.ltb_lt, N.eqb_eq. tauto.
Qed.

Lemma sanitize_filter (s : str) : sanitize s = filter printable_or_newline s.
Proof.
  unfold sanitize. rewrite join_singletons.
  apply list_filter_iff. intros c. apply sanitize_keep_spec.
Qed.

Lemma filter_all {A} (P : A -> Prop) `{!forall x, Decision (P x)} (l : list A) :
  Forall P l -> filter P l = l.
Proof.
  induction 1 as [|x l Hx _ IH]; [reflexivity|].
  rewrite filter_cons, decide_True by assumption. now rewrite IH.
Qed.

(** C9. For every string, [sanitize] returns exactly the characters whose
    code point lies strictly between 31 and 127 or that are the newline, in
    their original order: it is the filter of the input by that test, hence a
    subsequence of the input all of whose characters pass the test and which
    misses no character that passes it. A string of such characters only is
    returned unchanged, so sanitizing twice is sanitizing once. *)
Theorem sanitize_spec (s : str) :
  sanitize s = filter printable_or_newline s
  /\ sanitize s `sublist_of` s
  /\ Forall printable_or_newline (sanitize s)
  /\ (forall c, c ∈ s -> printable_or_newline c -> c ∈ sanitize s)
  /\ (Forall printable_or_newline s -> sanitize s = s)
  /\ sanitize (sanitize s) = sanitize s.
Proof.
  assert (Hall : Forall printable_or_newline (filter printable_or_newline s)).
  { apply Forall_forall. intros c Hc. now apply list_elem_of_filter in Hc. }
  rewrite !sanitize_filter.
  split; [reflexivity|]. split; [apply sublist_filter|].
  split; [exact Hall|]. split.
  { intros c Hin Hc. apply list_elem_of_filter. now split. }
  split; [apply filter_all; apply _|].
  now apply filter_all.
Qed.

(** The clean input of the specification's no-op case. *)
Lemma sanitize_spec_witness :
  sanitize (py "Modem state: Showtime" ++ [LF]) = py "Modem state: Showtime" ++ [LF].
Proof.
  destruct (sanitize_spec (py "Modem state: Showtime" ++ [LF]))
    as (_ & _ & _ & _ & Hclean & _).
  apply Hclean. apply Forall_forall. intros c Hc.
  apply sanitize_keep_spec.
  revert c Hc. apply Forall_forall. vm_compute.
  repeat constructor.
Defined.

(** ** The key-value parser *)

Lemma slice_to_nat (s : str) (p : nat) : slice_to s (Z.of_nat p) = take p s.
Proof.
  unfold slice_to, clamp_index, len.
  destruct (Z.ltb_spec (Z.of_nat p) 0) as [Hneg|_]; [lia|].
  destruct (Nat.le_gt_cases p (length s)) as [Hle|Hgt].
  - f_equal. lia.
  - rewrite !take_ge; [reflexivity|lia|lia].
Qed.

Lemma slice_from_nat (s : str) (p : nat) :
  slice_from s (Z.of_nat p + 1) = drop (S p) s.
Proof.
  unfold slice_from, clamp_index, len.
  destruct (Z.ltb_spec (Z.of_nat p + 1) 0) as [Hneg|_]; [lia|].
  destruct (Nat.le_gt_cases (S p) (length s)) as [Hle|Hgt].
  - f_equal. lia.
  - rewrite !drop_ge; [reflexivity|lia|lia].
Qed.

Lemma str_eqb_eq (a b : str) : str_eqb a b = true <-> a = b.
Proof.
  unfold str_eqb. split; intros Hab.
  - now apply bool_decide_eq_true in Hab.
  - now apply bool_decide_eq_true.
Qed.

Lemma str_eqb_single (c d : char) : str_eqb [c] [d] = (c =? d)%N.
Proof.
  destruct (N.eqb_spec c d) as [->|Hne].
  - now apply str_eqb_eq.
  - destruct (str_eqb [c] [d]) eqn:E; [|reflexivity].
    apply str_eqb_eq in E. congruence.
Qed.

(** One step of the scan, by the kind of character read. *)
Lemma scan_cons (c x : char) (rest : str) (idx : nat) (st : scan_locals) :
  scan [c] (x :: rest) idx st =
    if (x =? 40)%N then scan [c] rest (S idx) (ScanLocals (level st + 1) (pos st) (Some idx))
    else if (x =? 41)%N then scan [c] rest (S idx) (ScanLocals (level st - 1) (pos st) (Some idx))
    else if (x =? c)%N && (level st =? 0) then ScanLocals (level st) (Z.of_nat idx) (Some idx)
    else scan [c] rest (S idx) (ScanLocals (level st) (pos st) (Some idx)).
Proof.
  cbn [scan]. change (py "(") with [40%N]. change (py ")") with [41%N].
  now rewrite !str_eqb_single.
Qed.

(** The scan stops at a separator that stands at depth zero with none such
    before it. *)
Lemma scan_found (c : char) (before after : str) :
  c <> 40%N -> c <> 41%N ->
  forall (idx : nat) (st : scan_locals),
    level st + depth before = 0 ->
    (forall q, (q < length before)%nat ->
       ~ (before !! q = Some c /\ level st + depth (take q before) = 0)) ->
    scan [c] (before ++ c :: after) idx st =
      ScanLocals 0 (Z.of_nat (idx + length before)) (Some (idx + length before)%nat).
Proof.
  intros Hopen Hclose.
  induction before as [|x before IH]; intros idx st Hlevel Hfirst.
  - cbn [app length depth] in *. rewrite scan_cons.
    rewrite (proj2 (N.eqb_neq c 40)), (proj2 (N.eqb_neq c 41)) by assumption.
    rewrite N.eqb_refl. replace (level st) with 0 by lia. cbn.
    now rewrite Nat.add_0_r.
  - cbn [app]. rewrite scan_cons. cbn [depth length] in Hlevel, Hfirst |- *.
    replace (idx + S (length before))%nat with (S idx + length before)%nat by lia.
    assert (Hstep : forall d,
      d = (if (x =? 40)%N then 1 else if (x =? 41)%N then -1 else 0) ->
      forall q, (q < length before)%nat ->
        ~ (before !! q = Some c /\ level st + d + depth (take q before) = 0)).
    { intros d -> q Hq [Hc Hd]. apply (Hfirst (S q)); [lia|].
      split; [exact Hc|]. cbn [take depth]. lia. }
    destruct (N.eqb_spec x 40) as [->|Hx40].
    { apply IH; cbn [level]; [lia|]. apply (Hstep 1). reflexivity. }
    destruct (N.eqb_spec x 41) as [->|Hx41].
    { replace (level st - 1) with (level st + -1) by lia.
      apply IH; cbn [level]; [lia|]. apply (Hstep (-1)). reflexivity. }
    destruct (N.eqb_spec x c) as [->|Hxc]; cbn [andb].
    + destruct (Z.eqb_spec (level st) 0) as [Hzero|Hnz].
      * exfalso. apply (Hfirst 0%nat); [lia|]. split; [reflexivity|]. cbn. lia.
      * apply IH; cbn [level]; [lia|].
        intros q Hq. specialize (Hstep 0 eq_refl q Hq).
        now rewrite Z.add_0_r in Hstep.
    + apply IH; cbn [level]; [lia|].
      intros q Hq. specialize (Hstep 0 eq_refl q Hq).
      now rewrite Z.add_0_r in Hstep.
Qed.

(** Without a separator at depth zero the scan runs to the end of the line,
    so [i] is left at the last index and [pos] is untouched. *)
Lemma scan_not_found (c : char) (chars : str) :
  forall (idx : nat) (st : scan_locals),
    chars <> [] ->
    (forall q, ~ (chars !! q = Some c /\ c <> 40%N /\ c <> 41%N
                  /\ level st + depth (take q chars) = 0)) ->
    i (scan [c] chars idx st) = Some (idx + length chars - 1)%nat
    /\ pos (scan [c] chars idx st) = pos st.
Proof.
  induction chars as [|x chars IH]; intros idx st Hne Hnone; [congruence|].
  rewrite scan_cons.
  assert (Hstep : forall d,
    d = (if (x =? 40)%N then 1 else if (x =? 41)%N then -1 else 0) ->
    forall q, ~ (chars !! q = Some c /\ c <> 40%N /\ c <> 41%N
                 /\ level st + d + depth (take q chars) = 0)).
  { intros d -> q (Hc & H40 & H41 & Hd). apply (Hnone (S q)).
    repeat split; try assumption. cbn [take depth]. lia. }
  assert (Hrec : forall st', pos st' = pos st -> i st' = Some idx ->
    (forall q, ~ (chars !! q = Some c /\ c <> 40%N /\ c <> 41%N
                  /\ level st' + depth (take q chars) = 0)) ->
    i (scan [c] chars (S idx) st') = Some (idx + length (x :: chars) - 1)%nat
    /\ pos (scan [c] chars (S idx) st') = pos st).
  { intros st' Hpos Hi Hnone'. destruct chars as [|y chars'].
    - cbn. rewrite Hi, Hpos. split; [f_equal; lia|reflexivity].
    - destruct (IH (S idx) st') as [Hi' Hpos']; [congruence|exact Hnone'|].
      rewrite Hi', Hpos'. split; [f_equal; cbn [length]; lia|exact Hpos]. }
  destruct (N.eqb_spec x 40) as [->|Hx40].
  { apply Hrec; [reflexivity..|]. apply (Hstep 1). reflexivity. }
  destruct (N.eqb_spec x 41) as [->|Hx41].
  { apply Hrec; [reflexivity..|]. cbn [level].
    replace (level st - 1) with (level st + -1) by lia. apply (Hstep (-1)). reflexivity. }
  destruct (N.eqb_spec x c) as [->|Hxc]; cbn [andb].
  - destruct (Z.eqb_spec (level st) 0) as [Hzero|Hnz].
    + exfalso. apply (Hnone 0%nat). repeat split; try assumption. cbn. lia.
    + apply Hrec; [reflexivity..|]. cbn [level].
      intros q. specialize (Hstep 0 eq_refl q). now rewrite Z.add_0_r in Hstep.
  - apply Hrec; [reflexivity..|]. cbn [level].
    intros q. specialize (Hstep 0 eq_refl q). now rewrite Z.add_0_r in Hstep.
Qed.

(** The loop variable is bound as soon as one character has been read, and
    stays bound. *)
Lemma scan_binds_i (sep chars : str) :
  forall (idx : nat) (st : scan_locals),
    chars <> [] \/ is_Some (i st) -> is_Some (i (scan sep chars idx st)).
Proof.
  induction chars as [|x chars IH]; intros idx st Hor.
  - destruct Hor as [Hne|Hsome]; [congruence|exact Hsome].
  - cbn [scan].
    repeat match goal with
           | |- context [if ?b then _ else _] => destruct b
           end;
      try (apply IH; right; cbn; eauto); cbn; eauto.
Qed.

Lemma scan_nil (sep : str) (idx : nat) (st : scan_locals) : scan sep [] idx st = st.
Proof. reflexivity. Qed.

Lemma parse_line_bound (sep : str) (kv : gmap str str) (i0 : option nat) (line : str) :
  line <> [] \/ is_Some i0 ->
  exists kv' j, parse_line sep (kv, i0) line = Ok (kv', Some j).
Proof.
  intros Hor. unfold parse_line.
  destruct (scan_binds_i sep line 0 (ScanLocals 0 (-1) i0) Hor) as [j Hj].
  rewrite Hj. eauto.
Qed.

Lemma parse_lines_bound (sep : str) (lines : list str) :
  forall (kv : gmap str str) (j : nat),
    exists kv' j', parse_lines sep (kv, Some j) lines = Ok (kv', Some j').
Proof.
  induction lines as [|line lines IH]; intros kv j; [cbn; eauto|].
  cbn [parse_lines].
  destruct (parse_line_bound sep kv (Some j) line) as (kv1 & j1 & ->); [right; eauto|].
  apply IH.
Qed.

Lemma parse_lines_app (sep : str) (l1 l2 : list str) (st : gmap str str * option nat) :
  parse_lines sep st (l1 ++ l2) =
    match parse_lines sep st l1 with
    | Ok st' => parse_lines sep st' l2
    | Raise e => Raise e
    end.
Proof.
  revert st. induction l1 as [|line l1 IH]; intros st; [reflexivity|].
  cbn [app parse_lines]. destruct (parse_line sep st line); [apply IH|reflexivity].
Qed.

(** The parser raises exactly when the first line is empty: that is the one
    way to reach the slices with the loop variable still unbound. *)
Lemma parse_key_value_raises_iff (lines : list str) (sep : str) (e : exn) :
  parse_key_value lines sep = Raise e <->
  head lines = Some [] /\ e = UnboundLocalError (py "i").
Proof.
  unfold parse_key_value. destruct lines as [|line lines]; cbn [parse_lines head].
  - split; [discriminate|intros [? _]; discriminate].
  - destruct line as [|x line].
    + cbn. split; [intros [= <-]; auto|intros [_ ->]; reflexivity].
    + destruct (parse_line_bound sep ∅ None (x :: line)) as (kv1 & j1 & ->);
        [left; discriminate|].
      destruct (parse_lines_bound sep lines kv1 j1) as (kv2 & j2 & ->).
      split; [discriminate|intros [[=] _]].
Qed.

Lemma parse_line_found (c : char) (line : str) (p : nat) (kv : gmap str str)
    (i0 : option nat) :
  c <> 40%N -> c <> 41%N ->
  first_sep_at_depth0 c line p ->
  parse_line [c] (kv, i0) line = Ok (entry_at line p kv, Some p).
Proof.
  intros Hopen Hclose [[Hat Hdepth] Hfirst]. unfold parse_line.
  rewrite <- (take_drop_middle line p c Hat) at 1.
  assert (Hlen : (p < length line)%nat) by (eapply lookup_lt_Some; eassumption).
  rewrite scan_found; try assumption.
  - rewrite length_take, Nat.min_l by lia. cbn [i Nat.add].
    rewrite slice_to_nat, slice_from_nat. unfold entry_at.
    destruct (decide (strip (take p line) = [])) as [Hk|Hk].
    + rewrite (proj2 (str_eqb_eq _ _) Hk). reflexivity.
    + destruct (str_eqb (strip (take p line)) []) eqn:E; [|reflexivity].
      apply str_eqb_eq in E. contradiction.
  - intros q Hq [Hc Hd]. rewrite length_take in Hq.
    rewrite Forall_seq in Hfirst. apply (Hfirst q); [lia|].
    split.
    + rewrite lookup_take_lt in Hc by lia. exact Hc.
    + rewrite take_take, Nat.min_l in Hd by lia. cbn [level] in Hd. lia.
Qed.

(** C2. A line that holds the separator at nesting depth zero is split at the
    first such occurrence (occurrences inside parentheses are passed over):
    the key is the trimmed text before it, the value the trimmed text after
    it, and nothing is recorded when the trimmed key is empty. This is so
    after any lines parsed before it. *)
Theorem parse_key_value_splits_at_first_separator
    (c : char) (lines : list str) (line : str) (p : nat) (kv : gmap str str) :
  c <> 40%N -> c <> 41%N ->
  first_sep_at_depth0 c line p ->
  parse_key_value lines [c] = Ok kv ->
  parse_key_value (lines ++ [line]) [c] =
    Ok (let k := strip (take p line) in
        let v := strip (drop (S p) line) in
        if decide (k = []) then kv else <[k := v]> kv).
Proof.
  intros Hopen Hclose Hfirst Hbefore. unfold parse_key_value in *.
  rewrite parse_lines_app.
  destruct (parse_lines [c] (∅, None) lines) as [[kv0 i0]|e]; [|discriminate].
  injection Hbefore as ->. cbn [parse_lines].
  now rewrite (parse_line_found c line p kv i0 Hopen Hclose Hfirst).
Qed.

Ltac by_decide := apply (bool_decide_unpack _); vm_compute; exact I.

(** The three lines the specification gives for C2, obtained from the
    theorem: "a(b:c):d" splits at index 6, "  key  :  value  " at index 7 and
    ":value" at index 0, where the key is empty. *)
Lemma parse_key_value_splits_at_first_separator_witness :
  parse_key_value [py "a(b:c):d"] default_sep = Ok {[ py "a(b:c)" := py "d" ]}
  /\ parse_key_value [py "  key  :  value  "] default_sep = Ok {[ py "key" := py "value" ]}
  /\ parse_key_value [py ":value"] default_sep = Ok ∅.
Proof.
  split; [|split].
  - refine (eq_trans (parse_key_value_splits_at_first_separator
                        58%N [] (py "a(b:c):d") 6 ∅ _ _ _ _) _);
      [discriminate | discriminate | by_decide | reflexivity | vm_compute; reflexivity].
  - refine (eq_trans (parse_key_value_splits_at_first_separator
                        58%N [] (py "  key  :  value  ") 7 ∅ _ _ _ _) _);
      [discriminate | discriminate | by_decide | reflexivity | vm_compute; reflexivity].
  - refine (eq_trans (parse_key_value_splits_at_first_separator
                        58%N [] (py ":value") 0 ∅ _ _ _ _) _);
      [discriminate | discriminate | by_decide | reflexivity | vm_compute; reflexivity].
Defined.

(** A non-empty line with no separator at depth zero is still sliced, at the
    index the scan stopped on, which is its last: the key is the line without
    its last character, the value is empty. *)
Lemma parse_line_not_found (c : char) (line : str) (kv : gmap str str)
    (i0 : option nat) :
  line <> [] ->
  (forall q, ~ sep_at_depth0 c line q) ->
  parse_line [c] (kv, i0) line =
    Ok (let k := strip (take (length line - 1) line) in
        if decide (k = []) then kv else <[k := []]> kv,
        Some (length line - 1)%nat).
Proof.
  intros Hne Hnone. unfold parse_line.
  destruct (scan_not_found c line 0 (ScanLocals 0 (-1) i0) Hne) as [Hi _].
  { intros q (Hc & _ & _ & Hd). apply (Hnone q). split; [exact Hc|exact Hd]. }
  rewrite Hi. cbn [Nat.add]. rewrite slice_to_nat, slice_from_nat.
  rewrite (drop_ge line (S (length line - 1))) by lia.
  change (strip []) with (@nil N).
  destruct (decide (strip (take (length line - 1) line) = [])) as [Hk|Hk].
  - rewrite (proj2 (str_eqb_eq _ _) Hk). reflexivity.
  - destruct (str_eqb (strip (take (length line - 1) line)) []) eqn:E; [|reflexivity].
    apply str_eqb_eq in E. contradiction.
Qed.

(** C1. A line with no separator at depth zero is to add no entry, and
    "noseparatorhere" is to parse to the empty mapping. The parser records
    the index in [pos] but slices at the loop variable [i], which the scan
    leaves on the last character: the line adds the entry
    "noseparatorher" -> "". *)
Theorem parse_key_value_line_without_separator :
  (forall q, ~ sep_at_depth0 58%N (py "noseparatorhere") q)
  /\ parse_key_value [py "noseparatorhere"] default_sep
     = Ok {[ py "noseparatorher" := [] ]}.
Proof.
  split; [|vm_compute; reflexivity].
  intros q [Hc _]. revert Hc.
  do 15 (destruct q as [|q]; [discriminate|]). discriminate.
Qed.

(** C4. The parser is to return a mapping for every list of lines. When the
    first line is empty the inner loop never runs, the loop variable [i] is
    unbound at the slice, and the call raises [UnboundLocalError]; an empty
    line after a non-empty one is harmless. *)
Theorem parse_key_value_empty_first_line :
  parse_key_value [[]] default_sep = Raise (UnboundLocalError (py "i"))
  /\ parse_key_value [[]; py "a:b"] default_sep = Raise (UnboundLocalError (py "i"))
  /\ parse_key_value [py "a:b"; []] default_sep = Ok {[ py "a" := py "b" ]}
  /\ parse_key_value [] default_sep = Ok ∅.
Proof. vm_compute. repeat split. Qed.

(** ** Field conversions *)

Lemma index_Some {A} (l : list A) (n : nat) (a : A) : l !! n = Some a -> index l n = Ok a.
Proof. unfold index. now intros ->. Qed.

Lemma bytes_per_second (kbit : Z) :
  1000 * kbit / 8 = Z.quot (1000 * kbit) 8 /\ 1000 * kbit / 8 = 125 * kbit.
Proof.
  assert (Hdiv : 1000 * kbit / 8 = 125 * kbit).
  { replace (1000 * kbit) with (125 * kbit * 8) by lia. apply Z.div_mul. lia. }
  split; [|exact Hdiv]. rewrite Hdiv.
  replace (1000 * kbit) with (125 * kbit * 8) by lia.
  symmetry. apply Z.quot_mul. lia.
Qed.

(** C7. The bandwidth text is split at the slash; each side, read as an
    integer number of kilobits per second, is multiplied by 1000 and divided
    by 8, truncating, to give bytes per second for down and up. The division
    is always exact, since 1000 is a multiple of 8. *)
Theorem bandwidth_of_spec (bandwidth_str down_str up_str : str) (down up : Z) :
  split bandwidth_str 47%N !! 0%nat = Some down_str ->
  split bandwidth_str 47%N !! 1%nat = Some up_str ->
  int down_str = Ok down ->
  int up_str = Ok up ->
  bandwidth_of bandwidth_str = Ok (Z.quot (1000 * down) 8, Z.quot (1000 * up) 8).
Proof.
  intros Hd Hu Hdown Hup. unfold bandwidth_of.
  rewrite (index_Some _ _ _ Hd), (index_Some _ _ _ Hu). cbn [result_bind].
  rewrite Hdown, Hup. cbn [result_bind].
  now rewrite (proj1 (bytes_per_second down)), (proj1 (bytes_per_second up)).
Qed.

Lemma bandwidth_of_spec_witness :
  bandwidth_of (py "8000/800") = Ok (1000000, 100000).
Proof.
  exact (bandwidth_of_spec (py "8000/800") (py "8000") (py "800") 8000 800
           eq_refl eq_refl eq_refl eq_refl).
Defined.

(** C8. The uptime text is split at the comma: the day count before it and
    the hh:mm:ss time after it give
    days * 86400 + hours * 3600 + minutes * 60 + seconds. *)
Theorem uptime_of_spec (uptime_str before_comma days_str hms_str : str)
    (days : Z) (t : hms_time) :
  split uptime_str 44%N !! 0%nat = Some before_comma ->
  split (strip before_comma) 32%N !! 0%nat = Some days_str ->
  int days_str = Ok days ->
  split uptime_str 44%N !! 1%nat = Some hms_str ->
  strptime_HMS (strip hms_str) = Ok t ->
  uptime_of uptime_str = Ok (days * 86400 + hour t * 3600 + minute t * 60 + second t).
Proof.
  intros Hb Hd Hdays Hh Ht. unfold uptime_of.
  rewrite (index_Some _ _ _ Hb). cbn [result_bind].
  rewrite (index_Some _ _ _ Hd). cbn [result_bind]. rewrite Hdays. cbn [result_bind].
  rewrite (index_Some _ _ _ Hh). cbn [result_bind]. rewrite Ht. cbn [result_bind].
  f_equal. lia.
Qed.

Lemma uptime_of_spec_witness :
  uptime_of (py "5, 03:20:10") = Ok 444010
  /\ 5 * 86400 + 3 * 3600 + 20 * 60 + 10 = 444010.
Proof.
  split; [|reflexivity].
  exact (uptime_of_spec (py "5, 03:20:10") (py "5") (py "5") (py " 03:20:10") 5
           (HMS 3 20 10) eq_refl eq_refl eq_refl eq_refl eq_refl).
Defined.

(** ** The session *)

Section session_facts.
Context {T : Type} `{Transport T}.

Lemma bind_Ok {A B} (m : M T A) (f : A -> M T B) w a w1 :
  m w = (Ok a, w1) -> bind m f w = f a w1.
Proof. unfold bind. now intros ->. Qed.

Lemma bind_Raise {A B} (m : M T A) (f : A -> M T B) w e w1 :
  m w = (Raise e, w1) -> bind m f w = (Raise e, w1).
Proof. unfold bind. now intros ->. Qed.

Lemma bind_Ok_inv {A B} (m : M T A) (f : A -> M T B) w b w' :
  bind m f w = (Ok b, w') ->
  exists a w1, m w = (Ok a, w1) /\ f a w1 = (Ok b, w').
Proof.
  unfold bind. destruct (m w) as [[a|e] w1]; [eauto|discriminate].
Qed.

Lemma bind_inv {A B} (m : M T A) (f : A -> M T B) w r w' :
  bind m f w = (r, w') ->
  (exists e, m w = (Raise e, w') /\ r = Raise e)
  \/ (exists a w1, m w = (Ok a, w1) /\ f a w1 = (r, w')).
Proof.
  unfold bind. destruct (m w) as [[a|e] w1]; [eauto|].
  intros [= <- <-]. eauto.
Qed.

(** [read], step by step. *)
Lemma read_unfold (self : TG585v8) (s : str) (w : world T) :
  read self s w =
    match encode s with
    | Raise e => (Raise e, w)
    | Ok expected =>
        let w' := World (read_until (conn w) expected (timeout self)).2
                        (trace w ++ [EvReadUntil expected]) in
        match (read_until (conn w) expected (timeout self)).1 with
        | Raise e => (Raise e, w')
        | Ok data =>
            match decode data with
            | Raise e => (Raise e, w')
            | Ok text =>
                if endswith text s
                then (Ok (sanitize (slice_to text (- len s))), w')
                else (Raise read_failed, w')
            end
        end
    end.
Proof.
  unfold read, bind, lift, do_read_until, raise, ret.
  destruct (encode s) as [expected|e]; [|reflexivity].
  destruct (read_until (conn w) expected (timeout self)) as [[data|e] c]; cbn;
    [|reflexivity].
  destruct (decode data) as [text|e]; [|reflexivity].
  destruct (endswith text s); reflexivity.
Qed.

Lemma write_unfold (self : TG585v8) (s : str) (w : world T) :
  write self s w =
    match encode s with
    | Raise e => (Raise e, w)
    | Ok buffer =>
        ((conn_write (conn w) buffer).1,
         World (conn_write (conn w) buffer).2 (trace w ++ [EvWrite buffer]))
    end.
Proof.
  unfold write, bind, lift, do_write.
  destruct (encode s) as [buffer|e]; [|reflexivity].
  destruct (conn_write (conn w) buffer) as [r c]; reflexivity.
Qed.

Lemma read_Ok_trace self s w out w' :
  read self s w = (Ok out, w') ->
  exists expected, encode s = Ok expected
                   /\ trace w' = trace w ++ [EvReadUntil expected].
Proof.
  rewrite read_unfold. destruct (encode s) as [expected|e]; [|discriminate].
  cbn zeta.
  destruct ((read_until (conn w) expected (timeout self)).1) as [data|e];
    [|discriminate].
  destruct (decode data) as [text|e]; [|discriminate].
  destruct (endswith text s); [|discriminate].
  intros [= _ <-]. eauto.
Qed.

Lemma write_Ok_trace self s w u w' :
  write self s w = (Ok u, w') ->
  exists buffer, encode s = Ok buffer /\ trace w' = trace w ++ [EvWrite buffer].
Proof.
  rewrite write_unfold. destruct (encode s) as [buffer|e]; [|discriminate].
  intros [= _ <-]. eauto.
Qed.

End session_facts.

(** Text of code points below 128 encodes to itself. *)
Lemma encode_ascii (s : str) :
  Forall (fun c => (c < 128)%N) s -> encode s = Ok s.
Proof.
  unfold encode. induction 1 as [|c s Hc _ IH]; [reflexivity|].
  cbn [utf8_encode_opt]. unfold utf8_encode_char at 1.
  rewrite (proj2 (N.ltb_lt c 128) Hc).
  destruct (utf8_encode_opt s) as [b|]; [|discriminate].
  now injection IH as ->.
Qed.

Lemma encode_app (a b : str) (ea eb : bytes) :
  encode a = Ok ea -> encode b = Ok eb -> encode (a ++ b) = Ok (ea ++ eb).
Proof.
  unfold encode. revert ea. induction a as [|c a IH]; intros ea.
  - cbn. intros [= <-]. now destruct (utf8_encode_opt b).
  - cbn [utf8_encode_opt app].
    destruct (utf8_encode_char c) as [bc|]; [|discriminate].
    destruct (utf8_encode_opt a) as [ba|]; [|discriminate].
    intros [= <-] Hb. specialize (IH ba eq_refl Hb).
    destruct (utf8_encode_opt (a ++ b)) as [bab|]; [|discriminate].
    injection IH as ->. now rewrite <- app_assoc.
Qed.

Lemma encode_app_inv (a b : str) (eab : bytes) :
  encode (a ++ b) = Ok eab ->
  exists ea eb, encode a = Ok ea /\ encode b = Ok eb /\ eab = ea ++ eb.
Proof.
  unfold encode. revert eab. induction a as [|c a IH]; intros eab.
  - cbn. destruct (utf8_encode_opt b) as [eb|]; [|discriminate].
    intros [= <-]. eauto.
  - cbn [utf8_encode_opt app].
    destruct (utf8_encode_char c) as [bc|]; [|discriminate].
    destruct (utf8_encode_opt (a ++ b)) as [bab|] eqn:E; [|discriminate].
    intros [= <-]. destruct (IH bab) as (ea & eb & Ha & Hb & ->); [reflexivity|].
    destruct (utf8_encode_opt a) as [ea'|]; [|discriminate].
    injection Ha as ->. exists (bc ++ ea), eb.
    repeat split; [exact Hb|]. now rewrite <- app_assoc.
Qed.

Lemma startswith_app (b r : str) : startswith (b ++ r) b = true.
Proof.
  induction b as [|y b IH]; [now destruct r|].
  cbn. now rewrite N.eqb_refl, IH.
Qed.

Lemma startswith_inv (a b : str) : startswith a b = true -> exists r, a = b ++ r.
Proof.
  revert a. induction b as [|y b IH]; intros a Hab; [now exists a|].
  destruct a as [|x a]; [discriminate|]. cbn in Hab.
  apply andb_true_iff in Hab as [Hxy Hrest]. apply N.eqb_eq in Hxy as ->.
  destruct (IH a Hrest) as [r ->]. now exists r.
Qed.

Lemma endswith_app (pre s : str) : endswith (pre ++ s) s = true.
Proof. unfold endswith. rewrite rev_app_distr. apply startswith_app. Qed.

Lemma endswith_inv (a b : str) : endswith a b = true -> exists pre, a = pre ++ b.
Proof.
  unfold endswith. intros Hab. destruct (startswith_inv _ _ Hab) as [r Hr].
  exists (rev r). rewrite <- (rev_involutive a), Hr, rev_app_distr.
  now rewrite rev_involutive.
Qed.

(** [text[:-len(s)]] removes a trailing [s]. With an empty [s] the stop is
    [-0], which Python reads as index 0: the slice is empty whatever [text]
    is. *)
Lemma slice_to_minus_len (pre s : str) :
  s <> [] \/ pre = [] -> slice_to (pre ++ s) (- len s) = pre.
Proof.
  intros Hor. unfold slice_to, clamp_index, len.
  destruct s as [|c s].
  - destruct Hor as [Hne| ->]; [congruence|]. reflexivity.
  - destruct (Z.ltb_spec (- Z.of_nat (length (c :: s))) 0) as [_|Hge];
      [|cbn [length] in Hge; lia].
    rewrite length_app.
    replace (Z.to_nat _) with (length pre) by lia.
    apply take_app_length.
Qed.

Section read_facts.
Context {T : Type} `{Transport T}.

Lemma read_when_obtained (self : TG585v8) (s : str) (w : world T)
    (expected data : bytes) (text : str) (c' : T) :
  encode s = Ok expected ->
  read_until (conn w) expected (timeout self) = (Ok data, c') ->
  decode data = Ok text ->
  read self s w =
    (if endswith text s then Ok (sanitize (slice_to text (- len s)))
     else Raise read_failed,
     World c' (trace w ++ [EvReadUntil expected])).
Proof.
  intros He Hr Hd. rewrite read_unfold, He. cbn zeta. rewrite Hr. cbn [fst snd].
  rewrite Hd. now destruct (endswith text s).
Qed.

(** A failing read of the handshake is the outcome of [__init__]: no
    session object is returned. *)
Lemma init_fails_with_handshake_read (tmo : option Q) (user pw : option str)
    (w : world T) :
  let self := Session (or_default user (py "Administrator")) (or_default pw []) tmo None in
  let self' := Session (username self) (password self) tmo (Some true) in
  (forall e w1,
      read self (py "Username : ") w = (Raise e, w1) ->
      __init__ tmo user pw w = (Raise e, w1))
  /\ (forall o1 w1 w2 e w3,
      read self (py "Username : ") w = (Ok o1, w1) ->
      write self (username self ++ CRLF) w1 = (Ok tt, w2) ->
      read self (py "Password : ") w2 = (Raise e, w3) ->
      __init__ tmo user pw w = (Raise e, w3))
  /\ (forall o1 w1 w2 o2 w3 w4 e w5,
      read self (py "Username : ") w = (Ok o1, w1) ->
      write self (username self ++ CRLF) w1 = (Ok tt, w2) ->
      read self (py "Password : ") w2 = (Ok o2, w3) ->
      write self (password self ++ CRLF) w3 = (Ok tt, w4) ->
      read self' (top_prompt (username self)) w4 = (Raise e, w5) ->
      __init__ tmo user pw w = (Raise e, w5)).
Proof.
  cbn zeta. unfold __init__. repeat split.
  - intros e w1 H1. now rewrite (bind_Raise _ _ _ _ _ H1).
  - intros o1 w1 w2 e w3 H1 H2 H3.
    rewrite (bind_Ok _ _ _ _ _ H1), (bind_Ok _ _ _ _ _ H2).
    now rewrite (bind_Raise _ _ _ _ _ H3).
  - intros o1 w1 w2 o2 w3 w4 e w5 H1 H2 H3 H4 H5.
    rewrite (bind_Ok _ _ _ _ _ H1), (bind_Ok _ _ _ _ _ H2).
    rewrite (bind_Ok _ _ _ _ _ H3), (bind_Ok _ _ _ _ _ H4).
    cbn [username password timeout] in *.
    now rewrite (bind_Raise _ _ _ _ _ H5).
Qed.

(** A session object is returned only when all three reads of the
    handshake found their terminator. *)
Lemma init_Ok_inv (tmo : option Q) (user pw : option str) (w w' : world T)
    (obj : TG585v8) :
  __init__ tmo user pw w = (Ok obj, w') ->
  let self := Session (or_default user (py "Administrator")) (or_default pw []) tmo None in
  obj = Session (username self) (password self) tmo (Some true)
  /\ exists o1 w1 w2 o2 w3 w4 o3,
      read self (py "Username : ") w = (Ok o1, w1)
      /\ write self (username self ++ CRLF) w1 = (Ok tt, w2)
      /\ read self (py "Password : ") w2 = (Ok o2, w3)
      /\ write self (password self ++ CRLF) w3 = (Ok tt, w4)
      /\ read obj (top_prompt (username self)) w4 = (Ok o3, w').
Proof.
  cbn zeta. unfold __init__. intros Hinit.
  apply bind_Ok_inv in Hinit as (o1 & w1 & H1 & Hinit).
  apply bind_Ok_inv in Hinit as ([] & w2 & H2 & Hinit).
  apply bind_Ok_inv in Hinit as (o2 & w3 & H3 & Hinit).
  apply bind_Ok_inv in Hinit as ([] & w4 & H4 & Hinit).
  apply bind_Ok_inv in Hinit as (o3 & w5 & H5 & Hinit).
  unfold ret in Hinit. injection Hinit as <- <-.
  split; [reflexivity|]. cbn [username password timeout] in *.
  exists o1, w1, w2, o2, w3, w4, o3. auto.
Qed.

(** C5, as the code has it. [read] asks [read_until] for the encoded
    terminator and then has four outcomes and no other. An exception of
    [read_until], such as [EOFError] on a stream closed with nothing
    received, is raised unchanged. Bytes that are not UTF-8 raise
    [UnicodeDecodeError], whether or not the terminator follows them. Text
    that does not end with the terminator raises the [IOError] of [read].
    Text that ends with it gives the sanitized text before the terminator,
    the terminator removed. So [read] raises its own error exactly when
    data was returned, decodes, and does not end with the terminator. A
    read of the handshake that fails in any of these ways is the outcome of
    [__init__]: no session object is returned, and one is returned only
    when all three reads succeeded. *)
Theorem read_outcomes (self : TG585v8) (s : str) (w : world T) :
  read self s w =
    match encode s with
    | Raise e => (Raise e, w)
    | Ok expected =>
        let got := read_until (conn w) expected (timeout self) in
        (match got.1 with
         | Raise e => Raise e
         | Ok data =>
             match decode data with
             | Raise e => Raise e
             | Ok text =>
                 if endswith text s
                 then Ok (sanitize (slice_to text (- len s)))
                 else Raise read_failed
             end
         end,
         World got.2 (trace w ++ [EvReadUntil expected]))
    end
  /\ (forall expected data pre,
        encode s = Ok expected ->
        (read_until (conn w) expected (timeout self)).1 = Ok data ->
        decode data = Ok (pre ++ s) ->
        s <> [] \/ pre = [] ->
        (read self s w).1 = Ok (sanitize pre))
  /\ ((read self s w).1 = Raise read_failed <->
      exists expected,
        encode s = Ok expected
        /\ ((read_until (conn w) expected (timeout self)).1 = Raise read_failed
            \/ exists data text,
                (read_until (conn w) expected (timeout self)).1 = Ok data
                /\ decode data = Ok text
                /\ endswith text s = false))
  /\ (forall tmo user pw,
        let self0 := Session (or_default user (py "Administrator"))
                             (or_default pw []) tmo None in
        let self1 := Session (username self0) (password self0) tmo (Some true) in
        (forall e w1,
            read self0 (py "Username : ") w = (Raise e, w1) ->
            __init__ tmo user pw w = (Raise e, w1))
        /\ (forall o1 w1 w2 e w3,
            read self0 (py "Username : ") w = (Ok o1, w1) ->
            write self0 (username self0 ++ CRLF) w1 = (Ok tt, w2) ->
            read self0 (py "Password : ") w2 = (Raise e, w3) ->
            __init__ tmo user pw w = (Raise e, w3))
        /\ (forall o1 w1 w2 o2 w3 w4 e w5,
            read self0 (py "Username : ") w = (Ok o1, w1) ->
            write self0 (username self0 ++ CRLF) w1 = (Ok tt, w2) ->
            read self0 (py "Password : ") w2 = (Ok o2, w3) ->
            write self0 (password self0 ++ CRLF) w3 = (Ok tt, w4) ->
            read self1 (top_prompt (username self0)) w4 = (Raise e, w5) ->
            __init__ tmo user pw w = (Raise e, w5))
        /\ (forall obj w1,
            __init__ tmo user pw w = (Ok obj, w1) ->
            obj = self1
            /\ exists o1 wa wb o2 wc wd o3,
                read self0 (py "Username : ") w = (Ok o1, wa)
                /\ write self0 (username self0 ++ CRLF) wa = (Ok tt, wb)
                /\ read self0 (py "Password : ") wb = (Ok o2, wc)
                /\ write self0 (password self0 ++ CRLF) wc = (Ok tt, wd)
                /\ read obj (top_prompt (username self0)) wd = (Ok o3, w1))).
Proof.
  assert (Hrun : read self s w =
    match encode s with
    | Raise e => (Raise e, w)
    | Ok expected =>
        let got := read_until (conn w) expected (timeout self) in
        (match got.1 with
         | Raise e => Raise e
         | Ok data =>
             match decode data with
             | Raise e => Raise e
             | Ok text =>
                 if endswith text s
                 then Ok (sanitize (slice_to text (- len s)))
                 else Raise read_failed
             end
         end,
         World got.2 (trace w ++ [EvReadUntil expected]))
    end).
  { rewrite read_unfold. destruct (encode s) as [expected|e]; [|reflexivity].
    cbn zeta. destruct ((read_until (conn w) expected (timeout self)).1) as [data|e];
      [|reflexivity].
    destruct (decode data) as [text|e]; [|reflexivity].
    now destruct (endswith text s). }
  split; [exact Hrun|]. split; [|split].
  - intros expected data pre He Hr Hd Hor. rewrite Hrun, He. cbn zeta.
    rewrite Hr. cbn [fst]. rewrite Hd, endswith_app.
    now rewrite slice_to_minus_len.
  - rewrite Hrun. split.
    + destruct (encode s) as [expected|e] eqn:He.
      * cbn zeta. cbn [fst]. intros Hfail. exists expected. split; [reflexivity|].
        destruct ((read_until (conn w) expected (timeout self)).1) as [data|e];
          [right|left; exact Hfail].
        exists data. destruct (decode data) as [text|e] eqn:Hd.
        -- exists text. repeat split. now destruct (endswith text s).
        -- unfold decode in Hd. destruct (utf8_decode_opt data); [discriminate|].
           injection Hd as <-. discriminate.
      * cbn [fst]. intros Hfail. unfold encode in He.
        destruct (utf8_encode_opt s); [discriminate|].
        injection He as <-. discriminate.
    + intros (expected & He & Hcase). rewrite He. cbn zeta. cbn [fst].
      destruct Hcase as [Hr|(data & text & Hr & Hd & Hends)]; rewrite Hr;
        [reflexivity|].
      now rewrite Hd, Hends.
  - intros tmo user pw self0 self1.
    destruct (init_fails_with_handshake_read tmo user pw w) as (H1 & H2 & H3).
    split; [exact H1|]. split; [exact H2|]. split; [exact H3|].
    intros obj w1 Hinit.
    destruct (init_Ok_inv tmo user pw w w1 obj Hinit)
      as (Hobj & o1 & wa & wb & o2 & wc & wd & o3 & Hall).
    split; [exact Hobj|]. exists o1, wa, wb, o2, wc, wd, o3. exact Hall.
Qed.

End read_facts.

(** C5, as the specification words it, fails in two ways. On a stream closed
    with nothing received the terminator is never seen, and [read] raises
    [EOFError], which is no [IOError]. On bytes that are not UTF-8 followed
    by the terminator, the data ends with the terminator and [read] returns
    nothing: it raises [UnicodeDecodeError]. In both cases [__init__] raises
    the same error. *)
Lemma read_other_errors_propagate :
  (read administrator (py "Username : ") (World closed_device [])).1 = Raise EOFError
  /\ is_IOError EOFError = false
  /\ (__init__ None None None (World closed_device [])).1 = Raise EOFError
  /\ (read_until garbled_device (py "Username : ") None).1
     = Ok (255%N :: py "Username : ")
  /\ (read administrator (py "Username : ") (World garbled_device [])).1
     = Raise UnicodeDecodeError
  /\ is_IOError UnicodeDecodeError = false
  /\ ~ (exists out, (read administrator (py "Username : ") (World garbled_device [])).1
                    = Ok out).
Proof.
  repeat split; try (vm_compute; reflexivity).
  intros [out Hout]. vm_compute in Hout. discriminate.
Qed.

(** The silent device lets the first read of the handshake time out with
    nothing received: [read] raises its error. A device that has sent its
    banner and prompt lets the same read return the sanitized banner. *)
Lemma read_outcomes_witness :
  (read administrator (top_prompt (py "Administrator")) (World silent_device [])).1
    = Raise read_failed
  /\ (read administrator (top_prompt (py "Administrator"))
        (World (Scripted (py "Welcome" ++ CRLF ++ device_prompt ++ py "x") [] false false)
               [])).1
     = Ok (py "Welcome" ++ [LF]).
Proof.
  split.
  - apply (proj2 (proj1 (proj2 (proj2 (read_outcomes
             administrator (top_prompt (py "Administrator")) (World silent_device [])))))).
    exists (py "{Administrator}=>"). split; [reflexivity|].
    right. exists [], []. repeat split.
  - refine (eq_trans (proj1 (proj2 (read_outcomes
             administrator (top_prompt (py "Administrator"))
             (World (Scripted (py "Welcome" ++ CRLF ++ device_prompt ++ py "x") [] false false)
                    [])))
             (py "{Administrator}=>") (py "Welcome" ++ CRLF ++ device_prompt)
             (py "Welcome" ++ CRLF) _ _ _ _) _);
      [reflexivity | reflexivity | reflexivity | left; discriminate
      | vm_compute; reflexivity].
Defined.

(** ** Navigation *)

Section navigation_facts.
Context {T : Type} `{Transport T}.

(** A command that runs to its end leaves one full cycle in the trace. *)
Lemma send_Ok_trace (self : TG585v8) (command : str) (w w' : world T) (out : str) :
  send self command w = (Ok out, w') ->
  exists cb pb,
    encode command = Ok cb
    /\ encode (prompt (username self)) = Ok pb
    /\ trace w' = trace w ++ command_cycle cb pb.
Proof.
  unfold send. intros Hsend.
  apply bind_Ok_inv in Hsend as (u & w1 & Hw & Hsend).
  apply bind_Ok_inv in Hsend as (echo & w2 & Hecho & Hreply).
  apply write_Ok_trace in Hw as (buffer & Hbuf & Ht1).
  apply read_Ok_trace in Hecho as (eol & Heol & Ht2).
  apply read_Ok_trace in Hreply as (pb & Hpb & Ht3).
  apply encode_app_inv in Hbuf as (cb & eb & Hcb & Heb & ->).
  assert (Hcrlf : encode CRLF = Ok CRLF) by reflexivity.
  rewrite Hcrlf in Heol, Heb. injection Heol as <-. injection Heb as <-.
  exists cb, pb. repeat split; try assumption.
  rewrite Ht3, Ht2, Ht1. unfold command_cycle.
  now rewrite <- !app_assoc.
Qed.

Lemma for_range_S (n : nat) (body : M T unit) :
  for_range (S n) body = (body ;; for_range n body).
Proof. reflexivity. Qed.

Lemma for_range_send_trace (self : TG585v8) (command : str) (n : nat) :
  forall (w w' : world T) (u : unit),
    for_range n (send self command ;; ret tt) w = (Ok u, w') ->
    n = O /\ w' = w
    \/ exists cb pb,
        encode command = Ok cb
        /\ encode (prompt (username self)) = Ok pb
        /\ trace w' = trace w ++ concat (repeat (command_cycle cb pb) n).
Proof.
  induction n as [|n IH]; intros w w' u Hrun.
  - left. cbn in Hrun. unfold ret in Hrun. injection Hrun as _ <-. auto.
  - right. rewrite for_range_S in Hrun.
    apply bind_Ok_inv in Hrun as ([] & w1 & Hbody & Hrest).
    apply bind_Ok_inv in Hbody as (out & w0 & Hsend & Hret).
    unfold ret in Hret. injection Hret as <-.
    apply send_Ok_trace in Hsend as (cb & pb & Hcb & Hpb & Ht).
    exists cb, pb. repeat split; try assumption.
    destruct (IH w0 w' u Hrest) as [[-> ->]|(cb' & pb' & Hcb' & Hpb' & Ht')].
    + cbn [repeat concat]. now rewrite app_nil_r.
    + rewrite Hcb in Hcb'. rewrite Hpb in Hpb'.
      injection Hcb' as <-. injection Hpb' as <-.
      rewrite Ht', Ht. cbn [repeat concat]. now rewrite <- app_assoc.
Qed.

(** C10. Resetting to the top level issues the go-up command ".." exactly
    four times, each as a full cycle of [send] (the command written, the
    echo read, the reply read to the prompt), whatever state the device is
    in. *)
Theorem reset_level_four_go_ups (self : TG585v8) (w w' : world T) :
  reset_level self w = (Ok tt, w') ->
  exists pb,
    encode (prompt (username self)) = Ok pb
    /\ trace w' = trace w ++ concat (repeat (command_cycle (py "..") pb) 4)
    /\ length (List.filter (fun ev => bool_decide (ev = EvWrite (py ".." ++ CRLF)))
                           (concat (repeat (command_cycle (py "..") pb) 4))) = 4%nat.
Proof.
  unfold reset_level. intros Hrun.
  destruct (for_range_send_trace self (py "..") 4 w w' tt Hrun)
    as [[Hfour _]|(cb & pb & Hcb & Hpb & Ht)]; [discriminate|].
  assert (Hup : encode (py "..") = Ok (py "..")) by reflexivity.
  rewrite Hup in Hcb. injection Hcb as <-.
  exists pb. split; [exact Hpb|]. split; [exact Ht|]. reflexivity.
Qed.

Lemma writes_app (a b : list event) : writes (a ++ b) = (writes a + writes b)%nat.
Proof. unfold writes. now rewrite List.filter_app, length_app. Qed.

Lemma writes_at_most_bind {A B} (n1 n2 : nat) (m : M T A) (f : A -> M T B) :
  writes_at_most n1 m -> (forall a, writes_at_most n2 (f a)) ->
  writes_at_most (n1 + n2) (bind m f).
Proof.
  intros Hm Hf w r w' Hrun.
  apply bind_inv in Hrun as [(e & Hrun & _)|(a & w1 & Hrun & Hcont)].
  - specialize (Hm _ _ _ Hrun). lia.
  - specialize (Hm _ _ _ Hrun). specialize (Hf a _ _ _ Hcont). lia.
Qed.

Lemma writes_at_most_read self s : writes_at_most 0 (read self s).
Proof.
  intros w r w'. rewrite read_unfold.
  destruct (encode s) as [expected|e]; [|intros [= _ <-]; lia].
  cbn zeta.
  destruct ((read_until (conn w) expected (timeout self)).1) as [data|e].
  - destruct (decode data) as [text|e]; [destruct (endswith text s)|];
      intros [= _ <-]; cbn [trace]; rewrite writes_app; cbn; lia.
  - intros [= _ <-]. cbn [trace]. rewrite writes_app. cbn. lia.
Qed.

Lemma writes_at_most_write self s : writes_at_most 1 (write self s).
Proof.
  intros w r w'. rewrite write_unfold.
  destruct (encode s) as [buffer|e]; intros [= _ <-]; [|lia].
  cbn [trace]. rewrite writes_app. cbn. lia.
Qed.

Lemma writes_at_most_send self command : writes_at_most 1 (send self command).
Proof.
  unfold send. change 1%nat with (1 + (0 + 0))%nat.
  apply writes_at_most_bind; [apply writes_at_most_write|intros _].
  apply writes_at_most_bind; [apply writes_at_most_read|intros _].
  apply writes_at_most_read.
Qed.

Lemma writes_at_most_for_range (n : nat) (body : M T unit) :
  writes_at_most 1 body -> writes_at_most n (for_range n body).
Proof.
  intros Hbody. induction n as [|n IH].
  - intros w r w' [= _ <-]. lia.
  - rewrite for_range_S. change (S n) with (1 + n)%nat.
    apply writes_at_most_bind; [exact Hbody|intros _; exact IH].
Qed.

(** However the reset ends, by completion or by a failing read, it has
    written at most four commands. *)
Lemma reset_level_at_most_four (self : TG585v8) :
  writes_at_most 4 (reset_level self).
Proof.
  apply writes_at_most_for_range.
  change 1%nat with (1 + 0)%nat.
  apply writes_at_most_bind; [apply writes_at_most_send|intros out].
  intros w r w' [= _ <-]. lia.
Qed.

End navigation_facts.

(** On a device that echoes each command and shows its prompt again, the
    reset runs to its end and leaves exactly the four cycles. *)
Lemma reset_level_four_go_ups_witness :
  trace (reset_level administrator (World (logged_in_device []) [])).2
  = concat (repeat (command_cycle (py "..") (py "{Administrator}")) 4).
Proof.
  destruct (reset_level_four_go_ups administrator
              (World (logged_in_device []) [])
              (reset_level administrator (World (logged_in_device []) [])).2)
    as (pb & Hpb & Htrace & _).
  - vm_compute. reflexivity.
  - vm_compute in Hpb. injection Hpb as <-. exact Htrace.
Defined.

(** ** Teardown *)

Lemma closes_app (a b : list event) : closes (a ++ b) = (closes a + closes b)%nat.
Proof. unfold closes. now rewrite List.filter_app, length_app. Qed.

Section teardown_facts.
Context {T : Type} `{Transport T}.

Lemma keeps_open_ret {A} (a : A) : keeps_open (T := T) (ret a).
Proof. intros w r w' [= _ <-]. reflexivity. Qed.

Lemma keeps_open_lift {A} (x : result A) : keeps_open (T := T) (lift x).
Proof. intros w r w' [= _ <-]. reflexivity. Qed.

Lemma keeps_open_bind {A B} (m : M T A) (f : A -> M T B) :
  keeps_open m -> (forall a, keeps_open (f a)) -> keeps_open (bind m f).
Proof.
  intros Hm Hf w r w' Hrun.
  apply bind_inv in Hrun as [(e & Hrun & _)|(a & w1 & Hrun & Hcont)].
  - eapply Hm; eassumption.
  - rewrite (Hf a _ _ _ Hcont). eapply Hm; eassumption.
Qed.

Lemma keeps_open_read self s : keeps_open (read self s).
Proof.
  intros w r w'. rewrite read_unfold.
  destruct (encode s) as [expected|e]; [|intros [= _ <-]; reflexivity].
  cbn zeta.
  destruct ((read_until (conn w) expected (timeout self)).1) as [data|e].
  - destruct (decode data) as [text|e]; [destruct (endswith text s)|];
      intros [= _ <-]; cbn [trace]; rewrite closes_app; cbn; lia.
  - intros [= _ <-]. cbn [trace]. rewrite closes_app. cbn. lia.
Qed.

Lemma keeps_open_write self s : keeps_open (write self s).
Proof.
  intros w r w'. rewrite write_unfold.
  destruct (encode s) as [buffer|e]; intros [= _ <-]; [|reflexivity].
  cbn [trace]. rewrite closes_app. cbn. lia.
Qed.

Lemma keeps_open_send self command : keeps_open (send self command).
Proof.
  unfold send.
  repeat first [ apply keeps_open_write | apply keeps_open_read
               | apply keeps_open_bind; [|intros ?] ].
Qed.

Lemma keeps_open_for_range n (body : M T unit) :
  keeps_open body -> keeps_open (for_range n body).
Proof.
  intros Hbody. induction n as [|n IH]; [apply keeps_open_ret|].
  rewrite for_range_S. apply keeps_open_bind; auto.
Qed.

Lemma keeps_open_reset_level self : keeps_open (reset_level self).
Proof.
  apply keeps_open_for_range, keeps_open_bind;
    [apply keeps_open_send | intros ?; apply keeps_open_ret].
Qed.

Lemma keeps_open_get_all_info self : keeps_open (get_all_info self).
Proof.
  unfold get_all_info, get_xdsl_info, get_iflist_info.
  repeat first [ apply keeps_open_reset_level | apply keeps_open_send
               | apply keeps_open_lift | apply keeps_open_ret
               | apply keeps_open_bind; [|intros ?] ].
Qed.

Lemma keeps_open_init tmo user pw : keeps_open (__init__ tmo user pw).
Proof.
  unfold __init__.
  repeat first [ apply keeps_open_read | apply keeps_open_write
               | apply keeps_open_ret | apply keeps_open_bind; [|intros ?] ].
Qed.

(** When the handshake fails, the constructor raises before the [with]
    block is entered: [__exit__] is not called, and the connection that
    was opened is never closed. *)
Lemma main_handshake_failure (ms : Z) (user pw : option str) (w w1 : world T) (e : exn) :
  __init__ (Some (Qmake ms 1000)) user pw w = (Raise e, w1) ->
  main ms user pw w = (Raise e, w1) /\ closes (trace w1) = closes (trace w).
Proof.
  intros Hinit. split.
  - unfold main, with_. now rewrite Hinit.
  - eapply keeps_open_init. eassumption.
Qed.

(** When the handshake succeeds, the block is left through [__exit__]
    whatever the queries did: the logout is written and the connection is
    closed, once, provided the transport accepts the write. *)
Lemma main_teardown_once (ms : Z) (user pw : option str) (w w1 : world T)
    (self : TG585v8) :
  __init__ (Some (Qmake ms 1000)) user pw w = (Ok self, w1) ->
  (forall c buffer, (conn_write c buffer).1 = Ok tt) ->
  exists r w2 c,
    get_all_info self w1 = (r, w2)
    /\ closes (trace w2) = closes (trace w)
    /\ main ms user pw w =
         (r, World c (trace w2 ++ [EvWrite (py "exit" ++ CRLF); EvClose])).
Proof.
  intros Hinit Hwrite.
  destruct (get_all_info self w1) as [r w2] eqn:Hbody.
  exists r, w2, (conn_close (conn_write (conn w2) (py "exit" ++ CRLF)).2).
  split; [reflexivity|]. split.
  - rewrite (keeps_open_get_all_info self _ _ _ Hbody).
    eapply keeps_open_init. eassumption.
  - unfold main, with_. rewrite Hinit. unfold __enter__, ret. rewrite Hbody.
    destruct (init_Ok_inv _ _ _ _ _ _ Hinit) as [-> _].
    unfold __exit__. cbn [connected]. unfold bind. rewrite write_unfold.
    assert (Hexit : encode (py "exit" ++ CRLF) = Ok (py "exit" ++ CRLF))
      by reflexivity.
    rewrite Hexit. rewrite Hwrite. unfold do_close. cbn [conn trace].
    now rewrite <- app_assoc.
Qed.

End teardown_facts.

(** C3. Teardown is to run exactly once for a session that was opened even
    in part, a handshake read that times out included. On a device that
    never sends the login prompt the first read of [__init__] raises; the
    constructor is evaluated before the [with] block is entered, so
    [__exit__] does not run: nothing is written, and the connection stays
    open. Once the handshake is through, teardown does run once, whether the
    queries succeed (the device that answers) or a read fails (the device
    that goes quiet after the login). *)
Theorem main_handshake_timeout_runs_no_teardown :
  main 5000 None None (World silent_device [])
    = (Raise read_failed, World silent_device [EvReadUntil (py "Username : ")])
  /\ closes (trace (main 5000 None None (World silent_device [])).2) = 0%nat
  /\ closed (conn (main 5000 None None (World silent_device [])).2) = false
  /\ closes (trace (main 5000 None None (World device [])).2) = 1%nat
  /\ (let quiet := Scripted (py "Username : ") login_script false false in
      (main 5000 None None (World quiet [])).1 = Raise read_failed
      /\ closes (trace (main 5000 None None (World quiet [])).2) = 1%nat
      /\ logouts (trace (main 5000 None None (World quiet [])).2) = 1%nat).
Proof. vm_compute. repeat split. Qed.

(** ** Queries *)

Lemma index_errors {A} (l : list A) (n : nat) (e : exn) :
  index l n = Raise e -> e = IndexError.
Proof. unfold index. destruct (l !! n); [discriminate|]. now intros [= <-]. Qed.

Lemma int_errors (s : str) (e : exn) : int s = Raise e -> e = ValueError.
Proof.
  unfold int.
  destruct (match strip_by int_space s with
            | 43%N :: digits => int_digits digits 0 false
            | 45%N :: digits => Z.opp <$> int_digits digits 0 false
            | _ => int_digits (strip_by int_space s) 0 false
            end); [|now intros [= <-]].
  destruct (_ <=? int_max_str_digits); [discriminate|]. now intros [= <-].
Qed.

Lemma strptime_HMS_errors (s : str) (e : exn) :
  strptime_HMS s = Raise e -> e = ValueError.
Proof.
  unfold strptime_HMS.
  destruct (first_match _ _ s) as [[t [|? ?]]|]; try (now intros [= <-]).
  destruct (second t <=? 59); [discriminate|]. now intros [= <-].
Qed.

Ltac conversion_cases :=
  repeat match goal with
         | |- context [match ?x with Ok _ => _ | Raise _ => _ end] =>
             let E := fresh "E" in destruct x eqn:E
         end;
  intros Heq; try discriminate; injection Heq as <-;
  first [ right; eapply index_errors; eassumption
        | left; eapply int_errors; eassumption
        | left; eapply strptime_HMS_errors; eassumption ].

Lemma uptime_of_errors (s : str) (e : exn) : uptime_of s = Raise e -> conversion_error e.
Proof. unfold uptime_of, result_bind, conversion_error. conversion_cases. Qed.

Lemma bandwidth_of_errors (s : str) (e : exn) :
  bandwidth_of s = Raise e -> conversion_error e.
Proof. unfold bandwidth_of, result_bind, conversion_error. conversion_cases. Qed.

(** The field extraction, step by step: the keys are looked up in the order
    uptime, bandwidth, state, type, and the uptime and the bandwidth are
    converted as soon as they are found. *)
Lemma xdsl_fields_unfold (kv : gmap str str) :
  xdsl_fields kv =
    match kv !! key_uptime with
    | None => Raise (KeyError key_uptime)
    | Some uptime_str =>
        match uptime_of uptime_str with
        | Raise e => Raise e
        | Ok up =>
            match kv !! key_bandwidth with
            | None => Raise (KeyError key_bandwidth)
            | Some bandwidth_str =>
                match bandwidth_of bandwidth_str with
                | Raise e => Raise e
                | Ok bw =>
                    match kv !! key_state with
                    | None => Raise (KeyError key_state)
                    | Some st =>
                        match kv !! key_type with
                        | None => Raise (KeyError key_type)
                        | Some ty =>
                            Ok {[ py "xdsl-info" :=
                                    GXdsl (XdslInfo st up ty (fst bw) (snd bw)) ]}
                        end
                    end
                end
            end
        end
    end.
Proof.
  unfold xdsl_fields, getitem, result_bind.
  destruct (kv !! key_uptime) as [uptime_str|]; [|reflexivity].
  destruct (uptime_of uptime_str) as [up|]; [|reflexivity].
  destruct (kv !! key_bandwidth) as [bandwidth_str|]; [|reflexivity].
  destruct (bandwidth_of bandwidth_str) as [bw|]; [|reflexivity].
  destruct (kv !! key_state) as [st|]; [|reflexivity].
  destruct (kv !! key_type) as [ty|]; reflexivity.
Qed.

Lemma required_key_cases (k : list N) :
  k ∈ required_keys <->
  k = key_uptime \/ k = key_bandwidth \/ k = key_state \/ k = key_type.
Proof. unfold required_keys. rewrite !elem_of_cons, elem_of_nil. tauto. Qed.

(** A [KeyError] of a required key carries that key and does not name the
    command. *)
Lemma key_error_names_key_only (k : list N) :
  k ∈ required_keys ->
  exn_args (KeyError k) = [k] /\ mentions (KeyError k) (py "xdsl info") = false.
Proof.
  intros Hk. split; [reflexivity|].
  apply required_key_cases in Hk as [->|[->|[->| ->]]]; vm_compute; reflexivity.
Qed.

(** What a missing key makes of the field extraction: the error is fixed by
    the first step that fails. *)
Lemma xdsl_fields_missing_key (kv : gmap str str) (key : str) :
  key ∈ required_keys ->
  kv !! key = None ->
  exists e,
    xdsl_fields kv = Raise e
    /\ is_IOError e = false
    /\ match kv !! key_uptime with
       | None => e = KeyError key_uptime
       | Some uptime_str =>
           match uptime_of uptime_str with
           | Raise e' => e = e' /\ conversion_error e'
           | Ok _ =>
               match kv !! key_bandwidth with
               | None => e = KeyError key_bandwidth
               | Some bandwidth_str =>
                   match bandwidth_of bandwidth_str with
                   | Raise e' => e = e' /\ conversion_error e'
                   | Ok _ =>
                       match kv !! key_state with
                       | None => e = KeyError key_state
                       | Some _ => e = KeyError key_type /\ kv !! key_type = None
                       end
                   end
               end
           end
       end
    /\ (forall k, e = KeyError k ->
          k ∈ required_keys /\ kv !! k = None
          /\ exn_args e = [k] /\ mentions e (py "xdsl info") = false).
Proof.
  intros Hreq Hmissing. rewrite xdsl_fields_unfold.
  assert (Hkey : forall k, k ∈ required_keys -> kv !! k = None ->
            is_IOError (KeyError k) = false
            /\ forall k', KeyError k = KeyError k' ->
                  k' ∈ required_keys /\ kv !! k' = None
                  /\ exn_args (KeyError k) = [k']
                  /\ mentions (KeyError k) (py "xdsl info") = false).
  { intros k Hk Hnone. split; [reflexivity|]. intros k' [= <-].
    split; [exact Hk|]. split; [exact Hnone|]. now apply key_error_names_key_only. }
  assert (Hconv : forall e, conversion_error e ->
            is_IOError e = false
            /\ forall k', e = KeyError k' ->
                  k' ∈ required_keys /\ kv !! k' = None
                  /\ exn_args e = [k'] /\ mentions e (py "xdsl info") = false).
  { intros e [-> | ->]; (split; [reflexivity|discriminate]). }
  destruct (kv !! key_uptime) as [uptime_str|] eqn:H1.
  2: { exists (KeyError key_uptime).
       destruct (Hkey key_uptime) as [Hio Hargs]; [apply required_key_cases; auto|exact H1|].
       auto. }
  destruct (uptime_of uptime_str) as [up|e] eqn:Hup.
  2: { exists e. pose proof (uptime_of_errors _ _ Hup) as Hce.
       destruct (Hconv e Hce) as [Hio Hargs]. auto. }
  destruct (kv !! key_bandwidth) as [bandwidth_str|] eqn:H2.
  2: { exists (KeyError key_bandwidth).
       destruct (Hkey key_bandwidth) as [Hio Hargs];
         [apply required_key_cases; auto|exact H2|].
       auto. }
  destruct (bandwidth_of bandwidth_str) as [bw|e] eqn:Hbw.
  2: { exists e. pose proof (bandwidth_of_errors _ _ Hbw) as Hce.
       destruct (Hconv e Hce) as [Hio Hargs]. auto. }
  destruct (kv !! key_state) as [st|] eqn:H3.
  2: { exists (KeyError key_state).
       destruct (Hkey key_state) as [Hio Hargs]; [apply required_key_cases; auto|exact H3|].
       auto. }
  destruct (kv !! key_type) as [ty|] eqn:H4.
  { exfalso. apply required_key_cases in Hreq as [->|[->|[->| ->]]]; congruence. }
  exists (KeyError key_type).
  destruct (Hkey key_type) as [Hio Hargs]; [apply required_key_cases; auto 10|exact H4|].
  auto.
Qed.

Section query_facts.
Context {T : Type} `{Transport T}.

(** C6, as the code has it. When a required key is absent from the parsed
    output of "xdsl info", [get_xdsl_info] returns no result, and the error
    it raises is fixed by the order of the lookups: uptime, bandwidth,
    state, type, the uptime and the bandwidth being converted as soon as
    they are found. It is the [KeyError] of the first absent key, unless
    the uptime or the bandwidth found before that key does not convert, in
    which case it is the [ValueError] or [IndexError] of that conversion.
    The [KeyError] carries the absent key and nothing else: the command is
    not named. None of these is the [IOError] that [read] raises. *)
Theorem get_xdsl_info_missing_key (self : TG585v8) (w w1 : world T) (out : str)
    (kv : gmap str str) (key : str) :
  (reset_level self ;; send self (py "xdsl info")) w = (Ok out, w1) ->
  parse_key_value (split out LF) default_sep = Ok kv ->
  key ∈ required_keys ->
  kv !! key = None ->
  exists e,
    get_xdsl_info self w = (Raise e, w1)
    /\ is_IOError e = false
    /\ match kv !! key_uptime with
       | None => e = KeyError key_uptime
       | Some uptime_str =>
           match uptime_of uptime_str with
           | Raise e' => e = e' /\ conversion_error e'
           | Ok _ =>
               match kv !! key_bandwidth with
               | None => e = KeyError key_bandwidth
               | Some bandwidth_str =>
                   match bandwidth_of bandwidth_str with
                   | Raise e' => e = e' /\ conversion_error e'
                   | Ok _ =>
                       match kv !! key_state with
                       | None => e = KeyError key_state
                       | Some _ => e = KeyError key_type /\ kv !! key_type = None
                       end
                   end
               end
           end
       end
    /\ (forall k, e = KeyError k ->
          k ∈ required_keys /\ kv !! k = None
          /\ exn_args e = [k] /\ mentions e (py "xdsl info") = false).
Proof.
  intros Hrun Hparse Hreq Hmissing.
  destruct (xdsl_fields_missing_key kv key Hreq Hmissing) as (e & He & Hrest).
  exists e. split; [|exact Hrest].
  apply bind_Ok_inv in Hrun as (u & w0 & Hreset & Hsend).
  unfold get_xdsl_info.
  rewrite (bind_Ok _ _ _ _ _ Hreset), (bind_Ok _ _ _ _ _ Hsend).
  unfold bind, lift. now rewrite Hparse, He.
Qed.

End query_facts.

(** A device that prints no uptime line: the query raises the [KeyError] of
    the uptime key. A device that prints the uptime but no bandwidth line:
    the uptime converts, and the query raises the [KeyError] of the
    bandwidth key. *)
Lemma get_xdsl_info_missing_key_witness :
  (get_xdsl_info administrator
     (World (logged_in_device xdsl_output_without_uptime) [])).1
  = Raise (KeyError key_uptime)
  /\ (get_xdsl_info administrator
        (World (logged_in_device xdsl_output_without_bandwidth) [])).1
     = Raise (KeyError key_bandwidth).
Proof.
  split.
  - destruct (get_xdsl_info_missing_key administrator
                (World (logged_in_device xdsl_output_without_uptime) [])
                (send administrator (py "xdsl info")
                   (reset_level administrator
                      (World (logged_in_device xdsl_output_without_uptime) [])).2).2
                (py "Modem state: Showtime" ++ [LF]
                 ++ py "Bandwidth (Down/Up - kbit/s): 8000/800" ++ [LF]
                 ++ py "xDSL Type: VDSL2" ++ [LF])
                {[ key_state := py "Showtime";
                   key_bandwidth := py "8000/800";
                   key_type := py "VDSL2" ]}
                key_uptime)
      as (e & Hrun & _ & Hcase & _).
    + vm_compute. reflexivity.
    + vm_compute. reflexivity.
    + by_decide.
    + vm_compute. reflexivity.
    + rewrite Hrun. cbn [fst]. f_equal. exact Hcase.
  - destruct (get_xdsl_info_missing_key administrator
                (World (logged_in_device xdsl_output_without_bandwidth) [])
                (send administrator (py "xdsl info")
                   (reset_level administrator
                      (World (logged_in_device xdsl_output_without_bandwidth) [])).2).2
                (py "Modem state: Showtime" ++ [LF]
                 ++ py "Up time (Days hh:mm:ss): 1, 00:00:00" ++ [LF]
                 ++ py "xDSL Type: VDSL2" ++ [LF])
                {[ key_state := py "Showtime";
                   key_uptime := py "1, 00:00:00";
                   key_type := py "VDSL2" ]}
                key_bandwidth)
      as (e & Hrun & _ & Hcase & _).
    + vm_compute. reflexivity.
    + vm_compute. reflexivity.
    + by_decide.
    + vm_compute. reflexivity.
    + rewrite Hrun. cbn [fst]. f_equal. exact Hcase.
Defined.

(** C6, as the specification words it, fails on that device: the error
    raised for the absent uptime key names the key but not the command that
    was to produce it. *)
Lemma get_xdsl_info_error_names_no_command :
  let w := World (logged_in_device xdsl_output_without_uptime) [] in
  (get_xdsl_info administrator w).1 = Raise (KeyError key_uptime)
  /\ ~ (exists e, (get_xdsl_info administrator w).1 = Raise e
                  /\ mentions e key_uptime = true
                  /\ mentions e (py "xdsl info") = true).
Proof.
  cbn zeta.
  assert (Hrun : (get_xdsl_info administrator
                    (World (logged_in_device xdsl_output_without_uptime) [])).1
                 = Raise (KeyError key_uptime)) by (vm_compute; reflexivity).
  split; [exact Hrun|].
  intros (e & He & _ & Hcmd). rewrite Hrun in He. injection He as <-.
  vm_compute in Hcmd. discriminate.
Qed.

Lemma bandwidth_of_Ok_inv (bandwidth_str : str) (bwd bwu : Z) :
  bandwidth_of bandwidth_str = Ok (bwd, bwu) ->
  exists down_str up_str down up,
    split bandwidth_str 47%N !! 0%nat = Some down_str
    /\ split bandwidth_str 47%N !! 1%nat = Some up_str
    /\ int down_str = Ok down /\ int up_str = Ok up
    /\ bwd = 125 * down /\ bwu = 125 * up.
Proof.
  unfold bandwidth_of, result_bind, index.
  destruct (split bandwidth_str 47%N !! 0%nat) as [down_str|]; [|discriminate].
  destruct (int down_str) as [down|] eqn:Hdown; [|discriminate].
  destruct (split bandwidth_str 47%N !! 1%nat) as [up_str|]; [|discriminate].
  destruct (int up_str) as [up|] eqn:Hup; [|discriminate].
  intros [= <- <-]. exists down_str, up_str, down, up.
  split; [reflexivity|]. split; [reflexivity|].
  split; [exact Hdown|]. split; [exact Hup|].
  split; apply bytes_per_second.
Qed.

(** The scenario of the specification: the device answers "xdsl info" with
    its four lines, and the query yields the converted fields. *)
Example get_xdsl_info_end_to_end :
  (get_xdsl_info administrator (World (logged_in_device xdsl_output) [])).1
  = Ok {[ py "xdsl-info" :=
            GXdsl (XdslInfo (py "Showtime") 86400 (py "VDSL2") 1000000 100000) ]}.
Proof. vm_compute. reflexivity. Qed.

(** The whole poll on the device that answers: both groups, one teardown. *)
Example main_end_to_end :
  (main 5000 None None (World device [])).1
  = Ok {[ py "xdsl-info" :=
            GXdsl (XdslInfo (py "Showtime") 86400 (py "VDSL2") 1000000 100000);
          py "iflist" := GIfList {[ py "local" := IfCounters 123 456 ]} ]}
  /\ closed (conn (main 5000 None None (World device [])).2) = true.
Proof. vm_compute. split; reflexivity. Qed.
(** * Further properties of the code *)

(** ** Trimming *)

Lemma lstrip_clean (s : str) :
  match lstrip s with
  | c :: _ => isspace c = false
  | [] => True
  end.
Proof.
  induction s as [|c s IH]; [exact I|].
  cbn [lstrip]. destruct (isspace c) eqn:E; [exact IH|exact E].
Qed.

Lemma lstrip_id (s : str) :
  match s with c :: _ => isspace c = false | [] => True end -> lstrip s = s.
Proof. destruct s as [|c s]; [reflexivity|]. cbn [lstrip]. now intros ->. Qed.

Lemma lstrip_suffix (s : str) :
  exists ws, s = ws ++ lstrip s /\ Forall (fun c => isspace c = true) ws.
Proof.
  induction s as [|c s (ws & Hs & Hws)]; [now exists []|].
  cbn [lstrip]. destruct (isspace c) eqn:E.
  - exists (c :: ws). split; [cbn; congruence|now constructor].
  - now exists [].
Qed.

Lemma rstrip_prefix (s : str) :
  exists ws, s = rstrip s ++ ws /\ Forall (fun c => isspace c = true) ws.
Proof.
  unfold rstrip. destruct (lstrip_suffix (rev s)) as (ws & Hs & Hws).
  exists (rev ws). split.
  - rewrite <- (rev_involutive s), Hs at 1. now rewrite rev_app_distr.
  - apply Forall_forall. intros c Hc. rewrite Forall_forall in Hws.
    apply Hws. apply list_elem_of_In, in_rev. apply list_elem_of_In. exact Hc.
Qed.

Lemma rstrip_keeps_clean_head (s : str) :
  match s with c :: _ => isspace c = false | [] => True end ->
  match rstrip s with c :: _ => isspace c = false | [] => True end.
Proof.
  intros Hs. destruct (rstrip_prefix s) as (ws & Heq & _).
  destruct (rstrip s) as [|c r]; [exact I|].
  rewrite Heq in Hs. exact Hs.
Qed.

Lemma rstrip_idemp (s : str) : rstrip (rstrip s) = rstrip s.
Proof.
  unfold rstrip. rewrite rev_involutive. f_equal.
  apply lstrip_id, lstrip_clean.
Qed.

Lemma strip_idemp (s : str) : strip (strip s) = strip s.
Proof.
  unfold strip.
  rewrite (lstrip_id (rstrip (lstrip s))).
  - apply rstrip_idemp.
  - apply rstrip_keeps_clean_head, lstrip_clean.
Qed.

(** ** More on the key-value parser *)

Lemma parse_lines_from_start (sep : str) (lines : list str) (kv : gmap str str)
    (j : option nat) :
  lines <> [] ->
  parse_lines sep (∅, None) lines = Ok (kv, j) ->
  is_Some j.
Proof.
  destruct lines as [|line lines]; [congruence|]. intros _. cbn [parse_lines].
  destruct line as [|x line]; [discriminate|].
  destruct (parse_line_bound sep ∅ None (x :: line)) as (kv1 & j1 & ->);
    [left; discriminate|].
  destruct (parse_lines_bound sep lines kv1 j1) as (kv2 & j2 & ->).
  intros [= _ <-]. eauto.
Qed.

(** X1. The parser raises in one case only, and then [UnboundLocalError]:
    when the first line is empty. *)
Theorem parse_key_value_raises_only_on_empty_first_line
    (lines : list str) (sep : str) :
  ((exists e, parse_key_value lines sep = Raise e) <-> head lines = Some [])
  /\ (forall e, parse_key_value lines sep = Raise e -> e = UnboundLocalError (py "i")).
Proof.
  split; [split|].
  - intros [e He]. now apply parse_key_value_raises_iff in He.
  - intros Hhead. exists (UnboundLocalError (py "i")).
    now apply parse_key_value_raises_iff.
  - intros e He. now apply parse_key_value_raises_iff in He.
Qed.

(** X2. A non-empty line with no separator at depth zero is not skipped: it
    is cut before its last character, and unless what is left is blank it
    adds an entry with that text, trimmed, as key and the empty string as
    value. *)
Theorem parse_key_value_unsplit_line (c : char) (lines : list str) (line : str)
    (kv : gmap str str) :
  line <> [] ->
  (forall q, ~ sep_at_depth0 c line q) ->
  parse_key_value lines [c] = Ok kv ->
  parse_key_value (lines ++ [line]) [c] =
    Ok (let k := strip (take (length line - 1) line) in
        if decide (k = []) then kv else <[k := []]> kv).
Proof.
  intros Hne Hnone Hbefore. unfold parse_key_value in *.
  rewrite parse_lines_app.
  destruct (parse_lines [c] (∅, None) lines) as [[kv0 i0]|e]; [|discriminate].
  injection Hbefore as ->. cbn [parse_lines].
  now rewrite (parse_line_not_found c line kv i0 Hne Hnone).
Qed.

Lemma parse_key_value_unsplit_line_witness :
  parse_key_value [py "up: 1"; py "(a:b) c"] default_sep
  = Ok {[ py "up" := py "1"; py "(a:b)" := [] ]}.
Proof.
  refine (eq_trans (parse_key_value_unsplit_line 58%N [py "up: 1"] (py "(a:b) c")
                      {[ py "up" := py "1" ]} _ _ _) _).
  - discriminate.
  - intros q [Hc Hd]. revert Hc Hd.
    do 7 (destruct q as [|q]; [try discriminate; intros _; discriminate|]).
    discriminate.
  - vm_compute. reflexivity.
  - vm_compute. reflexivity.
Defined.

Lemma parse_line_entry_clean (sep : str) (kv kv' : gmap str str) (i0 j : option nat)
    (line : str) :
  parse_line sep (kv, i0) line = Ok (kv', j) ->
  kv' = kv \/ exists a b, kv' = <[strip a := strip b]> kv /\ strip a <> [].
Proof.
  unfold parse_line. destruct (i (scan sep line 0 _)) as [n|]; [|discriminate].
  destruct (str_eqb (strip (slice_to line (Z.of_nat n))) []) eqn:E; cbn [negb];
    intros [= <- _]; [now left|right].
  eexists _, _. split; [reflexivity|].
  intros Hk. apply str_eqb_eq in Hk. congruence.
Qed.

Lemma parse_lines_clean (sep : str) (lines : list str) :
  forall (kv kv' : gmap str str) (i0 j : option nat),
    parse_lines sep (kv, i0) lines = Ok (kv', j) ->
    (forall k v, kv !! k = Some v -> k <> [] /\ strip k = k /\ strip v = v) ->
    forall k v, kv' !! k = Some v -> k <> [] /\ strip k = k /\ strip v = v.
Proof.
  induction lines as [|line lines IH]; intros kv kv' i0 j Hrun Hinv.
  - cbn in Hrun. injection Hrun as <- _. exact Hinv.
  - cbn [parse_lines] in Hrun.
    destruct (parse_line sep (kv, i0) line) as [[kv1 i1]|e] eqn:Hline; [|discriminate].
    apply (IH kv1 kv' i1 j Hrun).
    destruct (parse_line_entry_clean _ _ _ _ _ _ Hline) as [->|(a & b & -> & Hk)];
      [exact Hinv|].
    intros k v. rewrite lookup_insert. case_decide as Heq.
    + intros [= <-]. subst k. repeat split; [exact Hk|apply strip_idemp..].
    + apply Hinv.
Qed.

(** X3. Every key of the mapping returned is non-empty and carries no
    surrounding whitespace, and every value carries none either. *)
Theorem parse_key_value_entries_trimmed (lines : list str) (sep : str)
    (kv : gmap str str) (k v : str) :
  parse_key_value lines sep = Ok kv ->
  kv !! k = Some v ->
  k <> [] /\ strip k = k /\ strip v = v.
Proof.
  unfold parse_key_value.
  destruct (parse_lines sep (∅, None) lines) as [[kv0 j]|e] eqn:Hrun; [|discriminate].
  intros [= <-]. apply (parse_lines_clean sep lines ∅ kv0 None j Hrun).
  intros k' v'. rewrite lookup_empty. discriminate.
Qed.

Lemma parse_key_value_entries_trimmed_witness :
  py "key" <> [] /\ strip (py "key") = py "key" /\ strip (py "value") = py "value".
Proof.
  apply (parse_key_value_entries_trimmed [py "  key  :  value  "] default_sep
           {[ py "key" := py "value" ]}).
  - vm_compute. reflexivity.
  - vm_compute. reflexivity.
Defined.

(** X4. An empty line that is not the first is harmless: the loop variable
    still holds the index left by the line before, both slices of the empty
    line are empty, and nothing is added. *)
Theorem parse_key_value_later_empty_line (lines : list str) (sep : str)
    (kv : gmap str str) :
  lines <> [] ->
  parse_key_value lines sep = Ok kv ->
  parse_key_value (lines ++ [[]]) sep = Ok kv.
Proof.
  intros Hne. unfold parse_key_value. rewrite parse_lines_app.
  destruct (parse_lines sep (∅, None) lines) as [[kv0 j]|e] eqn:Hrun; [|discriminate].
  intros [= <-]. destruct (parse_lines_from_start sep lines kv0 j Hne Hrun) as [n ->].
  cbn. rewrite slice_to_nat. now destruct n.
Qed.

Lemma parse_key_value_later_empty_line_witness :
  parse_key_value [py "a:b"; []] default_sep = Ok {[ py "a" := py "b" ]}.
Proof.
  refine (eq_trans (parse_key_value_later_empty_line [py "a:b"] default_sep
                      {[ py "a" := py "b" ]} _ _) _).
  - discriminate.
  - vm_compute. reflexivity.
  - reflexivity.
Defined.

Lemma parse_line_at_last (sep : str) (line : str) (kv : gmap str str) (i0 : option nat) :
  i (scan sep line 0 (ScanLocals 0 (-1) i0)) = Some (length line - 1)%nat ->
  parse_line sep (kv, i0) line =
    Ok (let k := strip (take (length line - 1) line) in
        if decide (k = []) then kv else <[k := []]> kv,
        Some (length line - 1)%nat).
Proof.
  intros Hi. unfold parse_line. rewrite Hi.
  rewrite slice_to_nat, slice_from_nat.
  rewrite (drop_ge line (S (length line - 1))) by lia.
  change (strip []) with (@nil N). cbn zeta.
  destruct (decide (strip (take (length line - 1) line) = [])) as [Hk|Hk].
  - rewrite (proj2 (str_eqb_eq _ _) Hk). reflexivity.
  - destruct (str_eqb (strip (take (length line - 1) line)) []) eqn:E; [|reflexivity].
    apply str_eqb_eq in E. contradiction.
Qed.

(** The parentheses are tested before the separator, so a separator that is
    a parenthesis, or that is not one character long, is never met. *)
Lemma scan_unusable_separator (sep : str) (chars : str) :
  (forall c, sep = [c] -> c = 40%N \/ c = 41%N) ->
  forall (idx : nat) (st : scan_locals),
    chars <> [] ->
    i (scan sep chars idx st) = Some (idx + length chars - 1)%nat.
Proof.
  intros Hsep. induction chars as [|x chars IH]; intros idx st Hne; [congruence|].
  assert (Hrec : forall st', i st' = Some idx ->
    i (scan sep chars (S idx) st') = Some (idx + length (x :: chars) - 1)%nat).
  { intros st' Hi. destruct chars as [|y chars'].
    - cbn. rewrite Hi. f_equal. lia.
    - rewrite IH by congruence. f_equal. cbn [length]. lia. }
  cbn [scan]. change (py "(") with [40%N]. change (py ")") with [41%N].
  rewrite !str_eqb_single.
  destruct (N.eqb_spec x 40) as [->|Hx40]; [now apply Hrec|].
  destruct (N.eqb_spec x 41) as [->|Hx41]; [now apply Hrec|].
  destruct (str_eqb [x] sep) eqn:E; cbn [andb]; [|now apply Hrec].
  apply str_eqb_eq in E. destruct (Hsep x (eq_sym E)); contradiction.
Qed.

(** X5. With a separator that is a parenthesis, or that is not exactly one
    character, no line is ever split at a separator: every non-empty line is
    cut before its last character, as a line without separator is. *)
Theorem parse_key_value_unusable_separator (sep : str) (lines : list str)
    (line : str) (kv : gmap str str) :
  (forall c, sep = [c] -> c = 40%N \/ c = 41%N) ->
  line <> [] ->
  parse_key_value lines sep = Ok kv ->
  parse_key_value (lines ++ [line]) sep =
    Ok (let k := strip (take (length line - 1) line) in
        if decide (k = []) then kv else <[k := []]> kv).
Proof.
  intros Hsep Hne Hbefore. unfold parse_key_value in *.
  rewrite parse_lines_app.
  destruct (parse_lines sep (∅, None) lines) as [[kv0 i0]|e]; [|discriminate].
  injection Hbefore as ->. cbn [parse_lines].
  rewrite (parse_line_at_last sep line kv i0); [reflexivity|].
  now rewrite scan_unusable_separator.
Qed.

Lemma parse_key_value_unusable_separator_witness :
  parse_key_value [py "a(b"] (py "(") = Ok {[ py "a(" := [] ]}
  /\ parse_key_value [py "a::b"] (py "::") = Ok {[ py "a::" := [] ]}.
Proof.
  split.
  - refine (eq_trans (parse_key_value_unusable_separator (py "(") [] (py "a(b") ∅ _ _ _) _).
    + intros c [= <-]. now left.
    + discriminate.
    + reflexivity.
    + vm_compute. reflexivity.
  - refine (eq_trans (parse_key_value_unusable_separator (py "::") [] (py "a::b") ∅ _ _ _) _).
    + intros c [=].
    + discriminate.
    + reflexivity.
    + vm_compute. reflexivity.
Defined.

(** ** More on the sanitizer *)

(** X6. Sanitizing is done character by character: the sanitized
    concatenation is the concatenation of the sanitized parts, the result is
    never longer than the input, and it holds no carriage return. *)
Theorem sanitize_app (a b : str) :
  sanitize (a ++ b) = sanitize a ++ sanitize b
  /\ (length (sanitize a) <= length a)%nat
  /\ CR ∉ sanitize a.
Proof.
  rewrite !sanitize_filter. split; [apply filter_app|]. split.
  - apply length_filter.
  - intros Hin. apply list_elem_of_filter in Hin as [[Hprint|Hlf] _].
    + unfold ord, CR in Hprint. lia.
    + discriminate.
Qed.

(** ** More on the session *)

Section more_session_facts.
Context {T : Type} `{Transport T}.

(** What a read that returns has been given by the transport. *)
Lemma read_Ok_data (self : TG585v8) (s : str) (w w' : world T) (out : str) :
  read self s w = (Ok out, w') ->
  exists expected data text pre,
    encode s = Ok expected
    /\ read_until (conn w) expected (timeout self) = (Ok data, conn w')
    /\ decode data = Ok text
    /\ text = pre ++ s
    /\ out = sanitize (slice_to text (- len s))
    /\ trace w' = trace w ++ [EvReadUntil expected].
Proof.
  rewrite read_unfold. destruct (encode s) as [expected|e]; [|discriminate].
  cbn zeta.
  destruct (read_until (conn w) expected (timeout self)) as [[data|e] c] eqn:Hr;
    cbn [fst snd]; [|discriminate].
  destruct (decode data) as [text|e] eqn:Hd; [|discriminate].
  destruct (endswith text s) eqn:Hends; [|discriminate].
  intros [= <- <-]. destruct (endswith_inv _ _ Hends) as [pre ->].
  exists expected, data, (pre ++ s), pre. cbn [conn trace]. auto 10.
Qed.

(** X7. A read returns only when the transport delivered UTF-8 text
    ending with the terminator, and what it returns holds nothing but
    printable ASCII characters and newlines; for a non-empty terminator it
    is the sanitized text before the terminator. *)
Theorem read_returns_clean_text (self : TG585v8) (s : str) (w w' : world T)
    (out : str) :
  read self s w = (Ok out, w') ->
  Forall printable_or_newline out
  /\ exists expected data text pre,
      encode s = Ok expected
      /\ read_until (conn w) expected (timeout self) = (Ok data, conn w')
      /\ decode data = Ok text
      /\ text = pre ++ s
      /\ (s <> [] -> out = sanitize pre).
Proof.
  intros Hread.
  destruct (read_Ok_data self s w w' out Hread)
    as (expected & data & text & pre & He & Hr & Hd & -> & -> & _).
  split.
  - rewrite sanitize_filter. apply Forall_forall. intros c Hc.
    now apply list_elem_of_filter in Hc.
  - exists expected, data, (pre ++ s), pre.
    repeat split; try assumption.
    intros Hne. now rewrite slice_to_minus_len by (left; exact Hne).
Qed.

Lemma prompt_nonempty (user : str) : prompt user <> [].
Proof. discriminate. Qed.

(** X8. A command that runs to its end made three calls, in this order:
    the command and CR LF written, a read to the end of the echoed line,
    whose text is dropped, and a read to the prompt. What [send] returns is
    the sanitized text that last read received before the prompt. *)
Theorem send_returns_sanitized_reply (self : TG585v8) (command : str)
    (w w' : world T) (out : str) :
  send self command w = (Ok out, w') ->
  exists cb pb data text pre,
    encode command = Ok cb
    /\ encode (prompt (username self)) = Ok pb
    /\ trace w' = trace w ++ command_cycle cb pb
    /\ decode data = Ok text
    /\ text = pre ++ prompt (username self)
    /\ out = sanitize pre
    /\ exists w2, read_until (conn w2) pb (timeout self) = (Ok data, conn w').
Proof.
  intros Hsend.
  destruct (send_Ok_trace self command w w' out Hsend) as (cb & pb & Hcb & Hpb & Ht).
  unfold send in Hsend.
  apply bind_Ok_inv in Hsend as (u & w1 & _ & Hsend).
  apply bind_Ok_inv in Hsend as (echo & w2 & _ & Hreply).
  destruct (read_Ok_data _ _ _ _ _ Hreply)
    as (pb' & data & text & pre & Hpb' & Hr & Hd & -> & -> & _).
  rewrite Hpb in Hpb'. injection Hpb' as <-.
  exists cb, pb, data, (pre ++ prompt (username self)), pre.
  repeat split; try assumption.
  - now rewrite slice_to_minus_len by (left; apply prompt_nonempty).
  - now exists w2.
Qed.

(** X9. [keepalive] is one cycle of the command "help", whose output is
    dropped; it never closes the connection. *)
Theorem keepalive_is_one_help_cycle (self : TG585v8) (w w' : world T) :
  keepalive self w = (Ok tt, w') ->
  exists pb,
    encode (prompt (username self)) = Ok pb
    /\ trace w' = trace w ++ command_cycle (py "help") pb
    /\ closes (trace w') = closes (trace w).
Proof.
  unfold keepalive. intros Hrun.
  apply bind_Ok_inv in Hrun as (out & w1 & Hsend & Hret).
  unfold ret in Hret. injection Hret as <-.
  pose proof (keeps_open_send self (py "help") _ _ _ Hsend) as Hopen.
  apply send_Ok_trace in Hsend as (cb & pb & Hcb & Hpb & Ht).
  assert (Hhelp : encode (py "help") = Ok (py "help")) by reflexivity.
  rewrite Hhelp in Hcb. injection Hcb as <-.
  exists pb. auto.
Qed.

(** X10. A session object is returned only after the five steps of the
    login, in order: read to "Username : ", write the user name, read to
    "Password : ", write the password, read to the top-level prompt. The
    user name is "Administrator" and the password empty when none, or an
    empty one, is given; the object is marked connected. *)
Theorem init_handshake (tmo : option Q) (user pw : option str)
    (w w' : world T) (obj : TG585v8) :
  __init__ tmo user pw w = (Ok obj, w') ->
  obj = Session (or_default user (py "Administrator")) (or_default pw []) tmo (Some true)
  /\ exists ub pb tb,
      encode (username obj) = Ok ub
      /\ encode (password obj) = Ok pb
      /\ encode (top_prompt (username obj)) = Ok tb
      /\ trace w' = trace w ++
           [EvReadUntil (py "Username : "); EvWrite (ub ++ CRLF);
            EvReadUntil (py "Password : "); EvWrite (pb ++ CRLF);
            EvReadUntil tb].
Proof.
  intros Hinit.
  destruct (init_Ok_inv _ _ _ _ _ _ Hinit)
    as (-> & o1 & w1 & w2 & o2 & w3 & w4 & o3 & H1 & H2 & H3 & H4 & H5).
  split; [reflexivity|]. cbn [username password] in *.
  apply read_Ok_trace in H1 as (e1 & He1 & Ht1).
  apply write_Ok_trace in H2 as (b2 & Hb2 & Ht2).
  apply read_Ok_trace in H3 as (e3 & He3 & Ht3).
  apply write_Ok_trace in H4 as (b4 & Hb4 & Ht4).
  apply read_Ok_trace in H5 as (tb & Htb & Ht5).
  apply encode_app_inv in Hb2 as (ub & c2 & Hub & Hc2 & ->).
  apply encode_app_inv in Hb4 as (pb & c4 & Hpb & Hc4 & ->).
  assert (Hcrlf : encode CRLF = Ok CRLF) by reflexivity.
  rewrite Hcrlf in Hc2, Hc4. injection Hc2 as <-. injection Hc4 as <-.
  assert (Hu : encode (py "Username : ") = Ok (py "Username : ")) by reflexivity.
  assert (Hp : encode (py "Password : ") = Ok (py "Password : ")) by reflexivity.
  rewrite Hu in He1. rewrite Hp in He3. injection He1 as <-. injection He3 as <-.
  exists ub, pb, tb. repeat split; try assumption.
  rewrite Ht5, Ht4, Ht3, Ht2, Ht1. now rewrite <- !app_assoc.
Qed.

Lemma exit_run (self : TG585v8) (w : world T) :
  connected self = Some true ->
  __exit__ self w =
    match conn_write (conn w) (py "exit" ++ CRLF) with
    | (Ok _, c) =>
        (Ok tt, World (conn_close c)
                      (trace w ++ [EvWrite (py "exit" ++ CRLF); EvClose]))
    | (Raise e, c) =>
        (Raise e, World c (trace w ++ [EvWrite (py "exit" ++ CRLF)]))
    end.
Proof.
  intros Hconn. unfold __exit__. rewrite Hconn. unfold bind. rewrite write_unfold.
  assert (Hexit : encode (py "exit" ++ CRLF) = Ok (py "exit" ++ CRLF)) by reflexivity.
  rewrite Hexit. destruct (conn_write (conn w) (py "exit" ++ CRLF)) as [[u|e] c];
    cbn [fst snd]; [|reflexivity].
  unfold do_close. cbn [conn trace]. now rewrite <- app_assoc.
Qed.

(** X11. Leaving a connected session writes the logout and then closes
    the connection, in that order. *)
Theorem exit_logs_out_then_closes (self : TG585v8) (w : world T) (c : T) :
  connected self = Some true ->
  conn_write (conn w) (py "exit" ++ CRLF) = (Ok tt, c) ->
  __exit__ self w =
    (Ok tt, World (conn_close c) (trace w ++ [EvWrite (py "exit" ++ CRLF); EvClose])).
Proof.
  intros Hconn Hwrite. now rewrite exit_run, Hwrite.
Qed.

(** X12. The close is not protected: when writing the logout raises,
    [__exit__] raises that error and the connection is left open. *)
Theorem exit_skips_close_when_logout_fails (self : TG585v8) (w : world T)
    (c : T) (e : exn) :
  connected self = Some true ->
  conn_write (conn w) (py "exit" ++ CRLF) = (Raise e, c) ->
  __exit__ self w = (Raise e, World c (trace w ++ [EvWrite (py "exit" ++ CRLF)]))
  /\ closes (trace (__exit__ self w).2) = closes (trace w).
Proof.
  intros Hconn Hwrite.
  assert (Hrun : __exit__ self w
                 = (Raise e, World c (trace w ++ [EvWrite (py "exit" ++ CRLF)]))).
  { now rewrite exit_run, Hwrite. }
  split; [exact Hrun|]. rewrite Hrun. cbn [snd trace].
  rewrite closes_app. cbn. lia.
Qed.

(** X13. When the handshake raises, [main] raises the same error without
    running a query or the teardown: the connection is not closed. *)
Theorem main_handshake_failure_leaves_connection_open (ms : Z)
    (user pw : option str) (w w1 : world T) (e : exn) :
  __init__ (Some (Qmake ms 1000)) user pw w = (Raise e, w1) ->
  main ms user pw w = (Raise e, w1) /\ closes (trace w1) = closes (trace w).
Proof. apply main_handshake_failure. Qed.


End more_session_facts.
Lemma read_returns_clean_text_witness :
  Forall printable_or_newline (py "Welcome" ++ [LF]).
Proof.
  refine (proj1 (read_returns_clean_text administrator (top_prompt (py "Administrator"))
            (World (Scripted (py "Welcome" ++ CRLF ++ device_prompt) [] false false) [])
            (World (Scripted [] [] false false) [EvReadUntil (py "{Administrator}=>")])
            (py "Welcome" ++ [LF]) _)).
  vm_compute. reflexivity.
Defined.

Lemma send_returns_sanitized_reply_witness :
  let w := World (answering "xdsl info" xdsl_output) [] in
  exists cb pb data text pre,
    encode (py "xdsl info") = Ok cb
    /\ encode (prompt (username administrator)) = Ok pb
    /\ trace (send administrator (py "xdsl info") w).2 = trace w ++ command_cycle cb pb
    /\ decode data = Ok text
    /\ text = pre ++ prompt (username administrator)
    /\ sanitize xdsl_output = sanitize pre
    /\ exists w2, read_until (conn w2) pb (timeout administrator)
                  = (Ok data, conn (send administrator (py "xdsl info") w).2).
Proof.
  cbn zeta.
  apply (send_returns_sanitized_reply administrator (py "xdsl info")
           (World (answering "xdsl info" xdsl_output) [])
           (send administrator (py "xdsl info")
              (World (answering "xdsl info" xdsl_output) [])).2
           (sanitize xdsl_output)).
  vm_compute. reflexivity.
Defined.

Lemma keepalive_is_one_help_cycle_witness :
  let w := World (answering "help" (py "Following commands are available :" ++ CRLF)) [] in
  exists pb,
    encode (prompt (username administrator)) = Ok pb
    /\ trace (keepalive administrator w).2 = trace w ++ command_cycle (py "help") pb
    /\ closes (trace (keepalive administrator w).2) = closes (trace w).
Proof.
  cbn zeta.
  apply (keepalive_is_one_help_cycle administrator
           (World (answering "help" (py "Following commands are available :" ++ CRLF)) [])).
  vm_compute. reflexivity.
Defined.

Lemma init_handshake_witness :
  let w := World (Scripted (py "Username : ") login_script false false) [] in
  default_session
  = Session (or_default None (py "Administrator")) (or_default (Some []) [])
            (Some (Qmake 5000 1000)) (Some true)
  /\ exists ub pb tb,
      encode (username default_session) = Ok ub
      /\ encode (password default_session) = Ok pb
      /\ encode (top_prompt (username default_session)) = Ok tb
      /\ trace (__init__ (Some (Qmake 5000 1000)) None (Some []) w).2 = trace w ++
           [EvReadUntil (py "Username : "); EvWrite (ub ++ CRLF);
            EvReadUntil (py "Password : "); EvWrite (pb ++ CRLF);
            EvReadUntil tb].
Proof.
  cbn zeta.
  apply (init_handshake (Some (Qmake 5000 1000)) None (Some [])
           (World (Scripted (py "Username : ") login_script false false) [])).
  vm_compute. reflexivity.
Defined.

Lemma exit_logs_out_then_closes_witness :
  __exit__ administrator (World silent_device [])
  = (Ok tt, World (conn_close silent_device)
                  ([] ++ [EvWrite (py "exit" ++ CRLF); EvClose])).
Proof.
  apply (exit_logs_out_then_closes administrator (World silent_device []) silent_device);
    reflexivity.
Defined.

Lemma exit_skips_close_when_logout_fails_witness :
  let w := World (Flaky silent_device 0) [] in
  __exit__ administrator w
  = (Raise broken_pipe, World (Flaky silent_device 0) ([] ++ [EvWrite (py "exit" ++ CRLF)]))
  /\ closes (trace (__exit__ administrator w).2) = closes (trace w).
Proof.
  cbn zeta.
  apply (exit_skips_close_when_logout_fails administrator
           (World (Flaky silent_device 0) []) (Flaky silent_device 0) broken_pipe);
    reflexivity.
Defined.

Lemma main_handshake_failure_leaves_connection_open_witness :
  let w := World (Scripted (py "Username : ") [] false false) [] in
  let w1 := (__init__ (Some (Qmake 5000 1000)) None None w).2 in
  main 5000 None None w = (Raise read_failed, w1)
  /\ closes (trace w1) = closes (trace w).
Proof.
  cbn zeta.
  apply (main_handshake_failure_leaves_connection_open 5000 None None
           (World (Scripted (py "Username : ") [] false false) [])).
  vm_compute. reflexivity.
Defined.


Section query_events.
Context {T : Type} `{Transport T}.

Lemma only_ret {A} (ok : event -> Prop) (a : A) : only (T := T) ok (ret a).
Proof. intros w r w' [= _ <-]. exists []. now rewrite app_nil_r. Qed.

Lemma only_lift {A} (ok : event -> Prop) (x : result A) : only (T := T) ok (lift x).
Proof. intros w r w' [= _ <-]. exists []. now rewrite app_nil_r. Qed.

Lemma only_bind {A B} (ok : event -> Prop) (m : M T A) (f : A -> M T B) :
  only ok m -> (forall a, only ok (f a)) -> only ok (bind m f).
Proof.
  intros Hm Hf w r w' Hrun.
  apply bind_inv in Hrun as [(e & Hrun & _)|(a & w1 & Hrun & Hcont)].
  - eapply Hm; eassumption.
  - destruct (Hm _ _ _ Hrun) as (t1 & Ht1 & Hok1).
    destruct (Hf a _ _ _ Hcont) as (t2 & Ht2 & Hok2).
    exists (t1 ++ t2). split; [now rewrite Ht2, Ht1, app_assoc|].
    now apply Forall_app.
Qed.

Lemma only_weaken {A} (ok ok' : event -> Prop) (m : M T A) :
  (forall ev, ok ev -> ok' ev) -> only ok m -> only ok' m.
Proof.
  intros Himp Hm w r w' Hrun. destruct (Hm _ _ _ Hrun) as (tr & Ht & Hok).
  exists tr. split; [exact Ht|]. eapply Forall_impl; eassumption.
Qed.

Lemma only_read (self : TG585v8) (s : str) :
  only (fun ev => exists expected, encode s = Ok expected /\ ev = EvReadUntil expected)
       (read self s).
Proof.
  intros w r w'. rewrite read_unfold.
  destruct (encode s) as [expected|e];
    [|intros [= _ <-]; exists []; now rewrite app_nil_r].
  cbn zeta.
  assert (Hone : exists tr,
    trace w ++ [EvReadUntil expected] = trace w ++ tr
    /\ Forall (fun ev => exists expected0,
                 Ok expected = Ok expected0 /\ ev = EvReadUntil expected0) tr).
  { exists [EvReadUntil expected]. split; [reflexivity|].
    repeat constructor. now exists expected. }
  destruct ((read_until (conn w) expected (timeout self)).1) as [data|e].
  - destruct (decode data) as [text|e]; [destruct (endswith text s)|];
      intros [= _ <-]; exact Hone.
  - intros [= _ <-]. exact Hone.
Qed.

Lemma only_write (self : TG585v8) (s : str) :
  only (fun ev => exists buffer, encode s = Ok buffer /\ ev = EvWrite buffer)
       (write self s).
Proof.
  intros w r w'. rewrite write_unfold.
  destruct (encode s) as [buffer|e]; intros [= _ <-].
  - exists [EvWrite buffer]. split; [reflexivity|].
    repeat constructor. now exists buffer.
  - exists []. now rewrite app_nil_r.
Qed.

Lemma only_send (self : TG585v8) (command : str) :
  encode command = Ok command ->
  only (fun ev => ev = EvWrite (command ++ CRLF) \/ ev = EvReadUntil CRLF
                  \/ exists pb, encode (prompt (username self)) = Ok pb
                                /\ ev = EvReadUntil pb)
       (send self command).
Proof.
  intros Hcmd. unfold send.
  assert (Hline : encode (command ++ CRLF) = Ok (command ++ CRLF))
    by (now apply encode_app).
  apply only_bind; [|intros _; apply only_bind; [|intros _]].
  - eapply only_weaken; [|apply only_write].
    intros ev (buffer & Hb & ->). rewrite Hline in Hb. injection Hb as <-. now left.
  - eapply only_weaken; [|apply only_read].
    intros ev (expected & He & ->). injection He as <-. right. now left.
  - eapply only_weaken; [|apply only_read].
    intros ev (pb & Hpb & ->). right. right. now exists pb.
Qed.

Lemma only_for_range (ok : event -> Prop) (n : nat) (body : M T unit) :
  only ok body -> only ok (for_range n body).
Proof.
  intros Hbody. induction n as [|n IH]; [apply only_ret|].
  rewrite for_range_S. apply only_bind; auto.
Qed.

Lemma only_query_send (self : TG585v8) (command : str) :
  encode command = Ok command ->
  command = py ".." \/ command = py "xdsl info" \/ command = py "ip iflist" ->
  only (query_event self) (send self command).
Proof.
  intros Hcmd Hwhich. eapply only_weaken; [|now apply only_send].
  intros ev [->|[->|Hprompt]]; unfold query_event.
  - destruct Hwhich as [->|[->| ->]]; auto.
  - auto.
  - auto 10.
Qed.

Lemma only_query_reset_level (self : TG585v8) :
  only (query_event self) (reset_level self).
Proof.
  apply only_for_range, only_bind; [|intros _; apply only_ret].
  apply only_query_send; [reflexivity|now left].
Qed.

Lemma writes_at_most_pure {A} (x : result A) : writes_at_most (T := T) 0 (lift x).
Proof. intros w r w' [= _ <-]. lia. Qed.

(** X16. Whatever their outcome, the queries make no call on the
    connection but these: writing "..", "xdsl info" or "ip iflist" followed
    by CR LF, reading to CR LF, reading to the prompt. They write at most
    ten commands, and they never write the logout nor close the
    connection. *)
Theorem get_all_info_only_queries (self : TG585v8) :
  only (query_event self) (get_all_info self)
  /\ writes_at_most 10 (get_all_info self)
  /\ forall w r w', get_all_info self w = (r, w') ->
       closes (trace w') = closes (trace w).
Proof.
  split; [|split; [|apply keeps_open_get_all_info]].
  - unfold get_all_info, get_xdsl_info, get_iflist_info.
    repeat first
      [ apply only_query_reset_level
      | apply only_lift
      | apply only_ret
      | apply only_query_send; [reflexivity|auto]
      | apply only_bind; [|intros ?] ].
  - unfold get_all_info, get_xdsl_info, get_iflist_info.
    change 10%nat with ((4 + (1 + (0 + 0))) + ((4 + (1 + (0 + 0))) + 0))%nat.
    repeat first
      [ apply reset_level_at_most_four
      | apply writes_at_most_send
      | apply writes_at_most_pure
      | apply (writes_at_most_pure (Ok _))
      | apply writes_at_most_bind; [|intros ?] ].
Qed.

End query_events.

(** ** More on the field conversions *)

Lemma split_no_sep (s : str) (sep : char) :
  Forall (fun c => c <> sep) s -> split s sep = [s].
Proof.
  induction 1 as [|c s Hc _ IH]; [reflexivity|].
  cbn [split]. rewrite (proj2 (N.eqb_neq c sep) Hc), IH. reflexivity.
Qed.

Lemma split_app_sep (a b : str) (sep : char) :
  Forall (fun c => c <> sep) a -> split (a ++ sep :: b) sep = a :: split b sep.
Proof.
  induction 1 as [|c a Hc _ IH]; cbn [app split].
  - now rewrite N.eqb_refl.
  - now rewrite (proj2 (N.eqb_neq c sep) Hc), IH.
Qed.

Lemma strip_no_space (s : str) :
  Forall (fun c => isspace c = false) s -> strip s = s.
Proof.
  intros Hs. unfold strip, rstrip.
  assert (Hl : forall t, Forall (fun c => isspace c = false) t -> lstrip t = t).
  { intros t Ht. apply lstrip_id. destruct Ht; [exact I|assumption]. }
  rewrite (Hl s Hs), Hl; [apply rev_involutive|].
  apply Forall_forall. intros c Hc. rewrite Forall_forall in Hs.
  apply Hs. apply list_elem_of_In, in_rev. apply list_elem_of_In. exact Hc.
Qed.

Lemma digit_facts (c : char) :
  is_digit c = true ->
  isspace c = false /\ c <> 43%N /\ c <> 45%N /\ c <> 47%N /\ c <> 44%N /\ c <> 32%N
  /\ 0 <= digit_value c <= 9.
Proof.
  unfold is_digit, digit_value, isspace, ord. intros Hd.
  apply andb_true_iff in Hd as [Hlo Hhi].
  apply Z.leb_le in Hlo. apply Z.leb_le in Hhi.
  repeat split; lia.
Qed.

Lemma numeral_chars (ds : str) (P : char -> Prop) :
  (forall c, is_digit c = true -> P c) -> is_numeral ds -> Forall P ds.
Proof.
  intros HP [_ Hds]. eapply Forall_impl; [exact Hds|exact HP].
Qed.

Lemma int_digits_numeral (ds : str) :
  Forall (fun c => is_digit c = true) ds ->
  forall (acc : Z) (after : bool),
    ds <> [] \/ after = true ->
    int_digits ds acc after = Some (foldl (fun a c => 10 * a + digit_value c) acc ds).
Proof.
  induction 1 as [|c ds Hc _ IH]; intros acc after Hor.
  - destruct Hor as [Hne| ->]; [congruence|reflexivity].
  - cbn [int_digits foldl]. rewrite Hc. apply IH. now right.
Qed.

Lemma strip_by_no_space (space : N -> bool) (s : list N) :
  Forall (fun c => space c = false) s -> strip_by space s = s.
Proof.
  intros Hs. unfold strip_by.
  assert (Hl : forall t, Forall (fun c => space c = false) t -> lstrip_by space t = t).
  { intros t Ht. destruct Ht as [|c t Hc _]; [reflexivity|]. cbn. now rewrite Hc. }
  rewrite (Hl s Hs), Hl; [apply rev_involutive|].
  apply Forall_forall. intros c Hc. rewrite Forall_forall in Hs.
  apply Hs. apply list_elem_of_In, in_rev. apply list_elem_of_In. exact Hc.
Qed.

Lemma digit_not_int_space (c : char) : is_digit c = true -> int_space c = false.
Proof.
  intros Hc. unfold int_space. now rewrite (proj1 (digit_facts c Hc)).
Qed.

Lemma filter_digits (ds : list N) :
  Forall (fun c => is_digit c = true) ds -> List.filter is_digit ds = ds.
Proof.
  induction 1 as [|c ds Hc _ IH]; [reflexivity|]. cbn. now rewrite Hc, IH.
Qed.

(** [int] reads a numeral of at most [int_max_str_digits] digits as its
    number. *)
Lemma int_numeral (ds : str) :
  is_numeral ds -> Z.of_nat (length ds) <= int_max_str_digits ->
  int ds = Ok (decimal_value ds).
Proof.
  intros Hnum Hlen. unfold int.
  rewrite strip_by_no_space
    by (apply (numeral_chars ds); [exact digit_not_int_space|exact Hnum]).
  destruct Hnum as [Hne Hds]. rewrite (filter_digits ds Hds).
  destruct (Z.leb_spec (Z.of_nat (length ds)) int_max_str_digits) as [_|Hgt]; [|lia].
  destruct ds as [|c ds]; [congruence|].
  pose proof (Forall_inv Hds) as Hc. cbn beta in Hc.
  destruct (digit_facts c Hc) as (_ & H43 & H45 & _).
  assert (Hdigits : int_digits (c :: ds) 0 false = Some (decimal_value (c :: ds)))
    by (apply int_digits_numeral; [exact Hds|left; discriminate]).
  destruct c as [|p]; [now rewrite Hdigits|].
  do 6 (destruct p as [p|p|]; try (now rewrite Hdigits)); congruence.
Qed.

(** X17. A bandwidth text made of two decimal numerals around a slash,
    neither longer than the 4300 digits [int] accepts, converts: each side
    is its number times 125. *)
Theorem bandwidth_of_numerals (down up : str) :
  is_numeral down -> is_numeral up ->
  Z.of_nat (length down) <= int_max_str_digits ->
  Z.of_nat (length up) <= int_max_str_digits ->
  bandwidth_of (down ++ py "/" ++ up)
  = Ok (125 * decimal_value down, 125 * decimal_value up).
Proof.
  intros Hd Hu Hld Hlu. unfold bandwidth_of. change (py "/" ++ up) with (47%N :: up).
  rewrite split_app_sep
    by (apply (numeral_chars down); [intros c Hc; apply (digit_facts c Hc)|exact Hd]).
  rewrite split_no_sep
    by (apply (numeral_chars up); [intros c Hc; apply (digit_facts c Hc)|exact Hu]).
  cbn [index lookup list_lookup result_bind].
  rewrite (int_numeral down Hd Hld), (int_numeral up Hu Hlu). cbn [result_bind].
  now rewrite (proj2 (bytes_per_second (decimal_value down))),
              (proj2 (bytes_per_second (decimal_value up))).
Qed.

Lemma bandwidth_of_numerals_witness :
  bandwidth_of (py "24576/1024") = Ok (3072000, 128000).
Proof.
  refine (eq_trans (bandwidth_of_numerals (py "24576") (py "1024") _ _ _ _) _).
  - split; [discriminate|]. vm_compute. repeat constructor.
  - split; [discriminate|]. vm_compute. repeat constructor.
  - vm_compute. discriminate.
  - vm_compute. discriminate.
  - reflexivity.
Defined.

Lemma two_digit_digits (n : nat) :
  (n < 100)%nat -> Forall (fun c => is_digit c = true) (two_digit n).
Proof.
  intros Hn. unfold two_digit, is_digit, ord.
  assert (n / 10 <= 9)%nat by (apply Nat.lt_succ_r, Nat.Div0.div_lt_upper_bound; lia).
  assert (n mod 10 < 10)%nat by (apply Nat.mod_upper_bound; lia).
  constructor; [|constructor; [|constructor]];
    rewrite nat_N_Z; apply andb_true_iff; split; apply Z.leb_le; lia.
Qed.

Lemma clock_chars (P : char -> Prop) (h m s : nat) :
  (h < 100)%nat -> (m < 100)%nat -> (s < 100)%nat ->
  (forall c, is_digit c = true -> P c) -> P 58%N ->
  Forall P (clock h m s).
Proof.
  intros Hh Hm Hs Hdigit Hcolon. unfold clock.
  repeat (apply Forall_app; split);
    try (eapply Forall_impl; [apply two_digit_digits; assumption|exact Hdigit]);
    repeat constructor; exact Hcolon.
Qed.

Lemma directive_H_two_digit {A} (f : Z -> list N -> option A) (rest : list N) (h : nat) :
  (h < 24)%nat ->
  first_match directive_H (fun v => expect_colon (f v)) (two_digit h ++ 58%N :: rest)
  = f (Z.of_nat h) rest.
Proof.
  intros Hh.
  do 24 (destruct h as [|h]; [vm_compute; destruct (f _ rest); reflexivity|]).
  lia.
Qed.

Lemma directive_M_two_digit {A} (f : Z -> list N -> option A) (rest : list N) (m : nat) :
  (m < 60)%nat ->
  first_match directive_M (fun v => expect_colon (f v)) (two_digit m ++ 58%N :: rest)
  = f (Z.of_nat m) rest.
Proof.
  intros Hm.
  do 60 (destruct m as [|m]; [vm_compute; destruct (f _ rest); reflexivity|]).
  lia.
Qed.

Lemma directive_S_two_digit (hh mm : Z) (s : nat) :
  (s < 60)%nat ->
  first_match directive_S (fun sec rest => Some (HMS hh mm sec, rest)) (two_digit s)
  = Some (HMS hh mm (Z.of_nat s), []).
Proof.
  intros Hs.
  do 60 (destruct s as [|s]; [vm_compute; reflexivity|]).
  lia.
Qed.

Lemma strptime_HMS_clock (h m s : nat) :
  (h < 24)%nat -> (m < 60)%nat -> (s < 60)%nat ->
  strptime_HMS (clock h m s) = Ok (HMS (Z.of_nat h) (Z.of_nat m) (Z.of_nat s)).
Proof.
  intros Hh Hm Hs. unfold strptime_HMS, clock.
  change (py ":" ++ two_digit m ++ py ":" ++ two_digit s)
    with (58%N :: two_digit m ++ 58%N :: two_digit s).
  rewrite directive_H_two_digit by exact Hh.
  rewrite directive_M_two_digit by exact Hm.
  rewrite directive_S_two_digit by exact Hs.
  cbn [second]. destruct (Z.leb_spec (Z.of_nat s) 59); [reflexivity|lia].
Qed.

(** X18. An uptime text made of a decimal numeral of days of at most 4300
    digits, a comma and a space, and a time of day hh:mm:ss converts to
    days * 86400 + hh * 3600 + mm * 60 + ss. *)
Theorem uptime_of_days_and_clock (days : str) (h m s : nat) :
  is_numeral days -> Z.of_nat (length days) <= int_max_str_digits ->
  (h < 24)%nat -> (m < 60)%nat -> (s < 60)%nat ->
  uptime_of (days ++ py ", " ++ clock h m s)
  = Ok (decimal_value days * 86400
        + Z.of_nat h * 3600 + Z.of_nat m * 60 + Z.of_nat s).
Proof.
  intros Hd Hlen Hh Hm Hs. unfold uptime_of.
  change (py ", " ++ clock h m s) with (44%N :: 32%N :: clock h m s).
  rewrite split_app_sep
    by (apply (numeral_chars days); [intros c Hc; apply (digit_facts c Hc)|exact Hd]).
  rewrite (split_no_sep (32%N :: clock h m s)).
  2: { constructor; [discriminate|].
       apply clock_chars; try lia; try discriminate.
       intros c Hc. apply (digit_facts c Hc). }
  cbn [index lookup list_lookup result_bind].
  rewrite strip_no_space
    by (apply (numeral_chars days); [intros c Hc; apply (digit_facts c Hc)|exact Hd]).
  rewrite split_no_sep
    by (apply (numeral_chars days); [intros c Hc; apply (digit_facts c Hc)|exact Hd]).
  cbn [index lookup list_lookup result_bind].
  rewrite (int_numeral days Hd Hlen). cbn [result_bind].
  assert (Hstrip : strip (32%N :: clock h m s) = clock h m s).
  { change (strip (32%N :: clock h m s)) with (strip (clock h m s)).
    apply strip_no_space, clock_chars; try lia; try reflexivity.
    intros c Hc. apply (digit_facts c Hc). }
  rewrite Hstrip, strptime_HMS_clock by assumption.
  cbn [result_bind hour minute second]. f_equal. lia.
Qed.

Lemma uptime_of_days_and_clock_witness :
  uptime_of (py "12, 23:59:59") = Ok 1123199.
Proof.
  refine (eq_trans (uptime_of_days_and_clock (py "12") 23 59 59 _ _ _ _ _) _).
  - split; [discriminate|]. vm_compute. repeat constructor.
  - vm_compute. discriminate.
  - lia.
  - lia.
  - lia.
  - reflexivity.
Defined.

Lemma first_match_inv {A} (alts : list (list N -> option (Z * list N)))
    (k : Z -> list N -> option A) (s : list N) (a : A) :
  first_match alts k s = Some a ->
  exists alt v rest, In alt alts /\ alt s = Some (v, rest) /\ k v rest = Some a.
Proof.
  induction alts as [|alt alts IH]; [discriminate|]. cbn [first_match].
  destruct (alt s) as [[v rest]|] eqn:Halt.
  - destruct (k v rest) as [a'|] eqn:Hk.
    + intros [= <-]. exists alt, v, rest. repeat split; [now left|assumption..].
    + intros Hrest. destruct (IH Hrest) as (alt' & v' & rest' & Hin & Hrest').
      exists alt', v', rest'. split; [now right|exact Hrest'].
  - intros Hrest. destruct (IH Hrest) as (alt' & v' & rest' & Hin & Hrest').
    exists alt', v', rest'. split; [now right|exact Hrest'].
Qed.

Ltac directive_bound :=
  unfold two_digits, one_digit, in_range, is_digit, digit_value, ord;
  match goal with
  | |- match ?s with _ => _ end = _ -> _ =>
      destruct s as [|? [|? ?]]; try discriminate
  end;
  match goal with
  | |- (if ?b then _ else _) = _ -> _ =>
      let E := fresh "E" in destruct b eqn:E; [|discriminate]
  end;
  intros [= <- _]; lia.

Lemma directive_H_bound alt s v rest :
  In alt directive_H -> alt s = Some (v, rest) -> 0 <= v <= 23.
Proof. intros [<-|[<-|[<-|[]]]]; directive_bound. Qed.

Lemma directive_M_bound alt s v rest :
  In alt directive_M -> alt s = Some (v, rest) -> 0 <= v <= 59.
Proof. intros [<-|[<-|[]]]; directive_bound. Qed.

Lemma directive_S_bound alt s v rest :
  In alt directive_S -> alt s = Some (v, rest) -> 0 <= v <= 61.
Proof. intros [<-|[<-|[<-|[]]]]; directive_bound. Qed.

Lemma expect_colon_inv {A} (k : list N -> option A) (s : list N) (a : A) :
  expect_colon k s = Some a -> exists rest, s = 58%N :: rest /\ k rest = Some a.
Proof.
  unfold expect_colon. destruct s as [|c rest]; [discriminate|].
  destruct c as [|p]; [discriminate|].
  do 6 (destruct p as [p|p|]; try discriminate).
  intros Hk. now exists rest.
Qed.

Lemma strptime_HMS_range (s : str) (t : hms_time) :
  strptime_HMS s = Ok t ->
  0 <= hour t <= 23 /\ 0 <= minute t <= 59 /\ 0 <= second t <= 59.
Proof.
  unfold strptime_HMS.
  destruct (first_match directive_H _ s) as [[t' rest]|] eqn:Hfound; [|discriminate].
  destruct rest; [|discriminate].
  destruct (Z.leb_spec (second t') 59) as [Hsec|]; [|discriminate].
  intros [= ->].
  apply first_match_inv in Hfound as (altH & h & r1 & HinH & HaltH & Hfound).
  apply expect_colon_inv in Hfound as (r2 & -> & Hfound).
  apply first_match_inv in Hfound as (altM & m & r3 & HinM & HaltM & Hfound).
  apply expect_colon_inv in Hfound as (r4 & -> & Hfound).
  apply first_match_inv in Hfound as (altS & sec & r5 & HinS & HaltS & Hfound).
  injection Hfound as <- _. cbn [hour minute second] in *.
  pose proof (directive_H_bound _ _ _ _ HinH HaltH).
  pose proof (directive_M_bound _ _ _ _ HinM HaltM).
  pose proof (directive_S_bound _ _ _ _ HinS HaltS).
  lia.
Qed.

(** X19. An uptime that converts is the day count times 86400 plus the
    time of day, where the day count is the integer read from the first
    word before the first comma and the time of day is the hh:mm:ss read
    after it; the hours, minutes and seconds are within 0..23, 0..59 and
    0..59, so the time of day adds less than one day. *)
Theorem uptime_of_result (uptime_str : str) (uptime : Z) :
  uptime_of uptime_str = Ok uptime ->
  exists before_comma days_str days hms_str t,
    split uptime_str 44%N !! 0%nat = Some before_comma
    /\ split (strip before_comma) 32%N !! 0%nat = Some days_str
    /\ int days_str = Ok days
    /\ split uptime_str 44%N !! 1%nat = Some hms_str
    /\ strptime_HMS (strip hms_str) = Ok t
    /\ uptime = days * 86400 + (hour t * 3600 + minute t * 60 + second t)
    /\ 0 <= hour t <= 23 /\ 0 <= minute t <= 59 /\ 0 <= second t <= 59
    /\ 0 <= hour t * 3600 + minute t * 60 + second t < 86400.
Proof.
  unfold uptime_of, result_bind, index.
  destruct (split uptime_str 44%N !! 0%nat) as [before_comma|] eqn:H0; [|discriminate].
  destruct (split (strip before_comma) 32%N !! 0%nat) as [days_str|] eqn:Hd;
    [|discriminate].
  destruct (int days_str) as [days|] eqn:Hdays; [|discriminate].
  destruct (split uptime_str 44%N !! 1%nat) as [hms_str|] eqn:H1; [|discriminate].
  destruct (strptime_HMS (strip hms_str)) as [t|] eqn:Ht; [|discriminate].
  intros [= <-]. pose proof (strptime_HMS_range _ _ Ht) as Hrange.
  exists before_comma, days_str, days, hms_str, t.
  split; [reflexivity|]. split; [exact Hd|]. split; [exact Hdays|].
  split; [reflexivity|]. split; [exact Ht|]. repeat split; lia.
Qed.

Lemma uptime_of_result_witness :
  exists before_comma days_str days hms_str t,
    split (py "3 days, 7:05:09") 44%N !! 0%nat = Some before_comma
    /\ split (strip before_comma) 32%N !! 0%nat = Some days_str
    /\ int days_str = Ok days
    /\ split (py "3 days, 7:05:09") 44%N !! 1%nat = Some hms_str
    /\ strptime_HMS (strip hms_str) = Ok t
    /\ 284709 = days * 86400 + (hour t * 3600 + minute t * 60 + second t)
    /\ 0 <= hour t <= 23 /\ 0 <= minute t <= 59 /\ 0 <= second t <= 59
    /\ 0 <= hour t * 3600 + minute t * 60 + second t < 86400.
Proof.
  apply (uptime_of_result (py "3 days, 7:05:09") 284709). reflexivity.
Defined.

(** X20. A bandwidth that converts comes from two integers around the
    slash, and each result is its integer times 125: a whole number of
    bytes per second, nothing being lost in the division by 8. *)
Theorem bandwidth_of_result (bandwidth_str : str) (bwd bwu : Z) :
  bandwidth_of bandwidth_str = Ok (bwd, bwu) ->
  exists down_str up_str down up,
    split bandwidth_str 47%N !! 0%nat = Some down_str
    /\ split bandwidth_str 47%N !! 1%nat = Some up_str
    /\ int down_str = Ok down /\ int up_str = Ok up
    /\ bwd = 125 * down /\ bwu = 125 * up.
Proof. apply bandwidth_of_Ok_inv. Qed.

Lemma bandwidth_of_result_witness :
  exists down_str up_str down up,
    split (py " 512 / -3") 47%N !! 0%nat = Some down_str
    /\ split (py " 512 / -3") 47%N !! 1%nat = Some up_str
    /\ int down_str = Ok down /\ int up_str = Ok up
    /\ 64000 = 125 * down /\ -375 = 125 * up.
Proof.
  apply (bandwidth_of_result (py " 512 / -3") 64000 (-375)). reflexivity.
Defined.

Lemma xdsl_fields_Ok_inv (kv : gmap str str) (d : gmap str group) :
  xdsl_fields kv = Ok d ->
  exists st uptime_str up ty bandwidth_str bw,
    kv !! key_uptime = Some uptime_str /\ uptime_of uptime_str = Ok up
    /\ kv !! key_bandwidth = Some bandwidth_str /\ bandwidth_of bandwidth_str = Ok bw
    /\ kv !! key_state = Some st /\ kv !! key_type = Some ty
    /\ d = {[ py "xdsl-info" := GXdsl (XdslInfo st up ty (fst bw) (snd bw)) ]}.
Proof.
  unfold xdsl_fields, getitem, result_bind.
  destruct (kv !! key_uptime) as [uptime_str|]; [|discriminate].
  destruct (uptime_of uptime_str) as [up|] eqn:Hup; [|discriminate].
  destruct (kv !! key_bandwidth) as [bandwidth_str|]; [|discriminate].
  destruct (bandwidth_of bandwidth_str) as [bw|] eqn:Hbw; [|discriminate].
  destruct (kv !! key_state) as [st|]; [|discriminate].
  destruct (kv !! key_type) as [ty|]; [|discriminate].
  intros [= <-]. exists st, uptime_str, up, ty, bandwidth_str, bw. auto 10.
Qed.

(** X21. The outcome of the field extraction is fixed by the first step
    that fails, in the order uptime key, uptime conversion, bandwidth key,
    bandwidth conversion, state key, type key. It succeeds exactly when all
    four keys are present and the uptime and bandwidth convert, with the one
    group "xdsl-info" holding the state and type as printed and the
    converted values. It raises the [KeyError] of a key exactly when that
    key is the first absent one and what was found before it converts, and
    the error of a conversion exactly when that conversion is the first step
    to fail; a conversion raises nothing but [ValueError] or [IndexError]. *)
Theorem xdsl_fields_outcomes (kv : gmap str str) :
  (forall d,
     xdsl_fields kv = Ok d <->
     exists st uptime_str up ty bandwidth_str bw,
       kv !! key_uptime = Some uptime_str /\ uptime_of uptime_str = Ok up
       /\ kv !! key_bandwidth = Some bandwidth_str /\ bandwidth_of bandwidth_str = Ok bw
       /\ kv !! key_state = Some st /\ kv !! key_type = Some ty
       /\ d = {[ py "xdsl-info" := GXdsl (XdslInfo st up ty (fst bw) (snd bw)) ]})
  /\ (forall e,
       xdsl_fields kv = Raise e <->
       (kv !! key_uptime = None /\ e = KeyError key_uptime)
       \/ exists uptime_str,
           kv !! key_uptime = Some uptime_str
           /\ (uptime_of uptime_str = Raise e
               \/ exists up,
                   uptime_of uptime_str = Ok up
                   /\ ((kv !! key_bandwidth = None /\ e = KeyError key_bandwidth)
                       \/ exists bandwidth_str,
                           kv !! key_bandwidth = Some bandwidth_str
                           /\ (bandwidth_of bandwidth_str = Raise e
                               \/ exists bw,
                                   bandwidth_of bandwidth_str = Ok bw
                                   /\ ((kv !! key_state = None /\ e = KeyError key_state)
                                       \/ (exists st, kv !! key_state = Some st)
                                          /\ kv !! key_type = None
                                          /\ e = KeyError key_type)))))
  /\ (forall s e, uptime_of s = Raise e \/ bandwidth_of s = Raise e ->
                  conversion_error e).
Proof.
  split; [|split].
  - intros d. split; [apply xdsl_fields_Ok_inv|].
    intros (st & us & up & ty & bs & bw & H1 & Hup & H2 & Hbw & H3 & H4 & ->).
    rewrite xdsl_fields_unfold. now rewrite H1, Hup, H2, Hbw, H3, H4.
  - intros e. rewrite xdsl_fields_unfold.
    destruct (kv !! key_uptime) as [us|] eqn:H1.
    2: { split; [intros [= <-]; now left|].
         intros [[_ ->]|(us & Hus & _)]; [reflexivity|discriminate]. }
    destruct (uptime_of us) as [up|e1] eqn:Hup.
    2: { split.
         - intros [= <-]. right. exists us. split; [reflexivity|]. now left.
         - intros [[Hnone _]|(us' & [= <-] & [Hr|(up & Hok & _)])];
             [discriminate|congruence|congruence]. }
    destruct (kv !! key_bandwidth) as [bs|] eqn:H2.
    2: { split.
         - intros [= <-]. right. exists us. split; [reflexivity|]. right.
           exists up. split; [exact Hup|]. now left.
         - intros [[Hnone _]|(us' & [= <-] & [Hr|(up' & Hok & Hrest)])];
             [discriminate|congruence|].
           destruct Hrest as [[_ ->]|(bs & Hbs & _)]; [reflexivity|discriminate]. }
    destruct (bandwidth_of bs) as [bw|e2] eqn:Hbw.
    2: { split.
         - intros [= <-]. right. exists us. split; [reflexivity|]. right.
           exists up. split; [exact Hup|]. right. exists bs. split; [reflexivity|].
           now left.
         - intros [[Hnone _]|(us' & [= <-] & [Hr|(up' & Hok & Hrest)])];
             [discriminate|congruence|].
           destruct Hrest as [[Hnone _]|(bs' & [= <-] & [Hr|(bw & Hok' & _)])];
             [discriminate|congruence|congruence]. }
    destruct (kv !! key_state) as [st|] eqn:H3.
    2: { split.
         - intros [= <-]. right. exists us. split; [reflexivity|]. right.
           exists up. split; [exact Hup|]. right. exists bs. split; [reflexivity|].
           right. exists bw. split; [exact Hbw|]. now left.
         - intros [[Hnone _]|(us' & [= <-] & [Hr|(up' & Hok & Hrest)])];
             [discriminate|congruence|].
           destruct Hrest as [[Hnone _]|(bs' & [= <-] & [Hr|(bw' & Hok' & Hrest)])];
             [discriminate|congruence|].
           destruct Hrest as [[_ ->]|([st Hst] & _)]; [reflexivity|discriminate]. }
    destruct (kv !! key_type) as [ty|] eqn:H4.
    + split; [discriminate|].
      intros [[Hnone _]|(us' & [= <-] & [Hr|(up' & Hok & Hrest)])];
        [discriminate|congruence|].
      destruct Hrest as [[Hnone _]|(bs' & [= <-] & [Hr|(bw' & Hok' & Hrest)])];
        [discriminate|congruence|].
      destruct Hrest as [[Hnone _]|(_ & Hnone & _)]; discriminate.
    + split.
      * intros [= <-]. right. exists us. split; [reflexivity|]. right.
        exists up. split; [exact Hup|]. right. exists bs. split; [reflexivity|].
        right. exists bw. split; [exact Hbw|]. right. eauto.
      * intros [[Hnone _]|(us' & [= <-] & [Hr|(up' & Hok & Hrest)])];
          [discriminate|congruence|].
        destruct Hrest as [[Hnone _]|(bs' & [= <-] & [Hr|(bw' & Hok' & Hrest)])];
          [discriminate|congruence|].
        destruct Hrest as [[Hnone _]|(_ & _ & ->)]; [discriminate|reflexivity].
  - intros s e [Hr|Hr]; [eapply uptime_of_errors|eapply bandwidth_of_errors];
      eassumption.
Qed.

(** ** The interface list *)

Lemma split_ws_from_word (t rest cur : str) :
  Forall (fun c => isspace c = false) t ->
  split_ws_from (t ++ rest) cur = split_ws_from rest (cur ++ t).
Proof.
  intros Ht. revert cur. induction Ht as [|c t Hc _ IH]; intros cur.
  - now rewrite app_nil_r.
  - cbn [app split_ws_from]. rewrite Hc, IH. now rewrite <- app_assoc.
Qed.

Lemma split_ws_from_words (s : str) :
  forall cur, Forall (fun c => isspace c = false) cur ->
    Forall is_word (split_ws_from s cur).
Proof.
  induction s as [|c s IH]; intros cur Hcur; cbn [split_ws_from].
  - destruct (str_eqb cur []) eqn:E; [constructor|].
    repeat constructor; [|exact Hcur].
    intros ->. now rewrite (proj2 (str_eqb_eq [] []) eq_refl) in E.
  - destruct (isspace c) eqn:Hc.
    + destruct (str_eqb cur []) eqn:E; [apply IH; constructor|].
      constructor; [|apply IH; constructor].
      split; [|exact Hcur].
      intros ->. now rewrite (proj2 (str_eqb_eq [] []) eq_refl) in E.
    + apply IH. apply Forall_app. split; [exact Hcur|now repeat constructor].
Qed.

Lemma str_eqb_word (t : str) : is_word t -> str_eqb t [] = false.
Proof.
  intros [Hne _]. destruct (str_eqb t []) eqn:E; [|reflexivity].
  apply str_eqb_eq in E. contradiction.
Qed.

(** Splitting the words joined by single spaces gives the words back. *)
Lemma split_ws_join (tokens : list str) :
  Forall is_word tokens -> split_ws (join (py " ") tokens) = tokens.
Proof.
  unfold split_ws. induction 1 as [|t tokens Ht Htokens IH]; [reflexivity|].
  destruct tokens as [|t' tokens'].
  - cbn [join]. rewrite <- (app_nil_r t) at 1.
    rewrite split_ws_from_word by apply Ht. cbn [app split_ws_from].
    now rewrite (str_eqb_word t Ht).
  - change (join (py " ") (t :: t' :: tokens'))
      with (t ++ 32%N :: join (py " ") (t' :: tokens')).
    rewrite split_ws_from_word by apply Ht. cbn [app split_ws_from].
    change (isspace 32) with true. cbn iota.
    rewrite (str_eqb_word t Ht). now rewrite IH.
Qed.

Lemma join_words_nil (tokens : list str) :
  Forall is_word tokens -> join (py " ") tokens = [] -> tokens = [].
Proof.
  intros Hwords. destruct Hwords as [|t tokens [Hne _] _]; [reflexivity|].
  destruct tokens; cbn [join]; [contradiction|].
  destruct t; [contradiction|discriminate].
Qed.

(** The tokens [iflist_line] works on are those of the line without its
    dots: normalising the blanks first changes nothing. *)
Lemma iflist_line_unfold (info : gmap str if_counters) (line : str) :
  iflist_line info line =
    let tokens := split_ws (replace line 46%N []) in
    match tokens with
    | [] => Ok info
    | _ =>
        let* t4 := index tokens 4 in
        let* tx := int t4 in
        let* t5 := index tokens 5 in
        let* rx := int t5 in
        let* name := index tokens 2 in
        Ok (<[name := IfCounters tx rx]> info)
    end.
Proof.
  unfold iflist_line. cbn zeta.
  pose proof (split_ws_from_words (replace line 46%N []) [] (Forall_nil_2 _)) as Hwords.
  fold (split_ws (replace line 46%N [])) in Hwords.
  rewrite (split_ws_join _ Hwords).
  destruct (split_ws (replace line 46%N [])) as [|t tokens] eqn:E; [reflexivity|].
  destruct (str_eqb (join (py " ") (t :: tokens)) []) eqn:Hjoin; [|reflexivity].
  apply str_eqb_eq in Hjoin. apply join_words_nil in Hjoin; [discriminate|exact Hwords].
Qed.

(** X22. What a line of the interface list does depends on its
    whitespace-separated tokens once its dots are removed. With no token the
    line is skipped. With fewer than five tokens it raises [IndexError].
    With integers as its fifth and sixth tokens it records them as [tx] and
    [rx] under its third token, replacing an earlier entry of that name. *)
Theorem iflist_line_by_tokens (info : gmap str if_counters) (line : str) :
  let tokens := split_ws (replace line 46%N []) in
  (tokens = [] -> iflist_line info line = Ok info)
  /\ ((0 < length tokens < 5)%nat -> iflist_line info line = Raise IndexError)
  /\ (forall name t4 t5 tx rx,
        tokens !! 2%nat = Some name ->
        tokens !! 4%nat = Some t4 -> int t4 = Ok tx ->
        tokens !! 5%nat = Some t5 -> int t5 = Ok rx ->
        iflist_line info line = Ok (<[name := IfCounters tx rx]> info)).
Proof.
  cbn zeta. rewrite iflist_line_unfold. cbn zeta.
  destruct (split_ws (replace line 46%N [])) as [|t0 tokens] eqn:E.
  - repeat split; [cbn; lia|discriminate].
  - split; [discriminate|]. split.
    + intros Hlen. unfold index.
      rewrite (proj2 (lookup_ge_None (t0 :: tokens) 4)) by lia. reflexivity.
    + intros name t4 t5 tx rx H2 H4 Htx H5 Hrx. unfold index.
      now rewrite H4, H5, H2; cbn [result_bind]; rewrite Htx; cbn [result_bind];
        rewrite Hrx.
Qed.

Lemma iflist_line_by_tokens_witness :
  iflist_line ∅ (py " . . .  ") = Ok ∅
  /\ iflist_line ∅ (py "1 eth0 lan 1500") = Raise IndexError
  /\ iflist_line {[ py "lan" := IfCounters 0 0 ]} (py "1  eth.0   lan  1500  12  34 UP")
     = Ok {[ py "lan" := IfCounters 12 34 ]}.
Proof.
  split; [|split].
  - apply (proj1 (iflist_line_by_tokens ∅ (py " . . .  "))). reflexivity.
  - apply (proj1 (proj2 (iflist_line_by_tokens ∅ (py "1 eth0 lan 1500")))).
    vm_compute. lia.
  - refine (eq_trans (proj2 (proj2 (iflist_line_by_tokens
              {[ py "lan" := IfCounters 0 0 ]} (py "1  eth.0   lan  1500  12  34 UP")))
              (py "lan") (py "12") (py "34") 12 34 _ _ _ _ _) _);
      [reflexivity..|vm_compute; reflexivity].
Defined.

Section more_query_facts.
Context {T : Type} `{Transport T}.


(** X24. When the answer to "xdsl info" is empty or begins with a
    newline, its first line is empty and the query raises
    [UnboundLocalError] out of the parser. *)
Theorem get_xdsl_info_empty_first_line (self : TG585v8) (w w1 : world T) (out : str) :
  (reset_level self ;; send self (py "xdsl info")) w = (Ok out, w1) ->
  out = [] \/ (exists rest, out = LF :: rest) ->
  get_xdsl_info self w = (Raise (UnboundLocalError (py "i")), w1).
Proof.
  intros Hrun Hout.
  apply bind_Ok_inv in Hrun as (u & w0 & Hreset & Hsend).
  unfold get_xdsl_info.
  rewrite (bind_Ok _ _ _ _ _ Hreset), (bind_Ok _ _ _ _ _ Hsend).
  assert (Hparse : parse_key_value (split out LF) default_sep
                   = Raise (UnboundLocalError (py "i"))).
  { apply parse_key_value_raises_iff. split; [|reflexivity].
    destruct Hout as [->|[rest ->]]; [reflexivity|].
    cbn [split]. now rewrite N.eqb_refl. }
  unfold bind, lift. now rewrite Hparse.
Qed.

End more_query_facts.


Lemma get_xdsl_info_empty_first_line_witness :
  let w := World (logged_in_device []) [] in
  get_xdsl_info administrator w
  = (Raise (UnboundLocalError (py "i")),
     (send administrator (py "xdsl info") (reset_level administrator w).2).2).
Proof.
  cbn zeta.
  apply (get_xdsl_info_empty_first_line administrator _ _ []).
  - vm_compute. reflexivity.
  - now left.
Defined.

(** ** Merging *)

(** X25. In the merge of several dictionaries a key has the value of the
    last dictionary that holds it: adding a dictionary at the end overrides
    the keys it holds and leaves the others as they were. *)
Theorem merge_dicts_last_wins {V : Type} (dicts : list (gmap (list N) V))
    (d : gmap (list N) V) (k : list N) :
  merge_dicts (dicts ++ [d]) !! k =
    match d !! k with
    | Some v => Some v
    | None => merge_dicts dicts !! k
    end.
Proof.
  unfold merge_dicts. rewrite foldl_snoc, lookup_union.
  destruct (d !! k), (foldl _ ∅ dicts !! k); reflexivity.
Qed.

Section all_info_facts.
Context {T : Type} `{Transport T}.

(** X26. A poll that succeeds ran both queries, the second in the state
    the first left, and holds exactly their two groups: "xdsl-info" with
    what the first query returned and "iflist" with what the second
    returned. *)
Theorem get_all_info_groups (self : TG585v8) (w w' : world T) (d : gmap str group) :
  get_all_info self w = (Ok d, w') ->
  exists w1 x info,
    get_xdsl_info self w = (Ok {[ py "xdsl-info" := GXdsl x ]}, w1)
    /\ get_iflist_info self w1 = (Ok {[ py "iflist" := GIfList info ]}, w')
    /\ d !! py "xdsl-info" = Some (GXdsl x)
    /\ d !! py "iflist" = Some (GIfList info)
    /\ forall k, k <> py "xdsl-info" -> k <> py "iflist" -> d !! k = None.
Proof.
  unfold get_all_info. intros Hrun.
  apply bind_Ok_inv in Hrun as (a & w1 & Ha & Hrun).
  apply bind_Ok_inv in Hrun as (b & w2 & Hb & Hret).
  unfold ret in Hret. injection Hret as <- <-.
  assert (Hgroup_a : exists x, a = {[ py "xdsl-info" := GXdsl x ]}).
  { unfold get_xdsl_info in Ha.
    apply bind_Ok_inv in Ha as (u & wa & _ & Ha).
    apply bind_Ok_inv in Ha as (out & wb & _ & Ha).
    apply bind_Ok_inv in Ha as (kv & wc & _ & Ha).
    unfold lift in Ha. injection Ha as Ha _.
    apply xdsl_fields_Ok_inv in Ha
      as (st & us & up & ty & bs & bw & _ & _ & _ & _ & _ & _ & ->).
    eauto. }
  assert (Hgroup_b : exists info, b = {[ py "iflist" := GIfList info ]}).
  { unfold get_iflist_info in Hb.
    apply bind_Ok_inv in Hb as (u' & wa' & _ & Hb).
    apply bind_Ok_inv in Hb as (out' & wb' & _ & Hb).
    apply bind_Ok_inv in Hb as (info & wc' & _ & Hb).
    unfold ret in Hb. injection Hb as <- _. eauto. }
  destruct Hgroup_a as [x ->]. destruct Hgroup_b as [info ->].
  exists w1, x, info. split; [exact Ha|]. split; [exact Hb|].
  unfold merge_dicts. cbn [foldl].
  assert (Hne : py "iflist" <> py "xdsl-info") by discriminate.
  split; [|split].
  - rewrite lookup_union_r by (now apply lookup_singleton_ne).
    rewrite lookup_union_l by apply lookup_empty. apply lookup_singleton_eq.
  - rewrite lookup_union_l'; [apply lookup_singleton_eq|].
    rewrite lookup_singleton_eq. eauto.
  - intros k Hx Hi. rewrite !lookup_union, !lookup_singleton_ne by congruence.
    now rewrite lookup_empty.
Qed.

End all_info_facts.

Lemma get_all_info_groups_witness :
  let w := World (Scripted [] (query_script "xdsl info" xdsl_output
                               ++ query_script "ip iflist" iflist_output) false false) [] in
  let d : gmap (list N) group :=
    {[ py "iflist" := GIfList {[ py "local" := IfCounters 123 456 ]} ]}
    ∪ ({[ py "xdsl-info" :=
            GXdsl (XdslInfo (py "Showtime") 86400 (py "VDSL2") 1000000 100000) ]} ∪ ∅) in
  exists w1 x info,
    get_xdsl_info default_session w = (Ok {[ py "xdsl-info" := GXdsl x ]}, w1)
    /\ get_iflist_info default_session w1
       = (Ok {[ py "iflist" := GIfList info ]}, (get_all_info default_session w).2)
    /\ d !! py "xdsl-info" = Some (GXdsl x)
    /\ d !! py "iflist" = Some (GIfList info)
    /\ forall k, k <> py "xdsl-info" -> k <> py "iflist" -> d !! k = None.
Proof.
  cbn zeta.
  apply (get_all_info_groups default_session
           (World (Scripted [] (query_script "xdsl info" xdsl_output
                                ++ query_script "ip iflist" iflist_output) false false) [])
           (get_all_info default_session
              (World (Scripted [] (query_script "xdsl info" xdsl_output
                                   ++ query_script "ip iflist" iflist_output)
                               false false) [])).2).
  vm_compute. reflexivity.
Defined.

Lemma parse_key_value_raises_only_on_empty_first_line_witness :
  exists e, parse_key_value [[]; py "a:b"] default_sep = Raise e.
Proof.
  apply (proj1 (parse_key_value_raises_only_on_empty_first_line [[]; py "a:b"] default_sep)).
  reflexivity.
Defined.

Lemma get_all_info_only_queries_witness :
  let w := World (logged_in_device xdsl_output_without_uptime) [] in
  closes (trace (get_all_info default_session w).2) = closes (trace w)
  /\ (writes (trace (get_all_info default_session w).2) <= writes (trace w) + 10)%nat.
Proof.
  cbn zeta. split.
  - apply (proj2 (proj2 (get_all_info_only_queries default_session))
             _ (get_all_info default_session
                  (World (logged_in_device xdsl_output_without_uptime) [])).1).
    apply surjective_pairing.
  - apply (proj1 (proj2 (get_all_info_only_queries default_session))
             _ (get_all_info default_session
                  (World (logged_in_device xdsl_output_without_uptime) [])).1).
    apply surjective_pairing.
Defined.
